(** * Glossary scrapers: a shallow embedding of the three scripts

    The repository holds three stand-alone scripts that extract glossary
    term/definition pairs and write them as CSV rows:

    - [owasp_scrape.py] (SectionStrategy): one row per [div.section];
    - [pdf_scraper.py]  (PatternStrategy): one row per regex match per page;
    - [scraper.py]      (TableStrategy):   one row per table paragraph
      with a [strong] element followed by text.

    Python [str] values are sequences of Unicode code points; the parse
    tree is BeautifulSoup's; the output file is a list of rows kept in a
    finite map from paths to file contents. *)

From Stdlib Require Import List NArith ZArith Ascii String Bool Lia.
From stdpp Require Import gmap.
Import ListNotations.

Set Default Proof Using "Type".

(** ** Text *)

Module Text.

(** A Python [str]: a sequence of Unicode code points. *)
Definition char := N.
Definition str := list char.

(** A literal of the source, written as an ASCII string. *)
Definition py (s : string) : str :=
  List.map N_of_ascii (list_ascii_of_string s).
Arguments py s%_string.

Definition str_eqb (a b : str) : bool :=
  if decide (a = b) then true else false.

(** [Py_UNICODE_ISSPACE]: the predicate behind both [str.strip()] and the
    regex category [\s] of a [str] pattern. *)
Definition isspace (c : char) : bool :=
  ((9 <=? c) && (c <=? 13) || (28 <=? c) && (c <=? 32)
   || (c =? 133) || (c =? 160) || (c =? 5760)
   || (8192 <=? c) && (c <=? 8202)
   || (c =? 8232) || (c =? 8233) || (c =? 8239) || (c =? 8287)
   || (c =? 12288))%N.

(** [str.lstrip()], [str.rstrip()], [str.strip()] without arguments. *)
Fixpoint lstrip (s : str) : str :=
  match s with
  | [] => []
  | c :: s' => if isspace c then lstrip s' else s
  end.

Definition rstrip (s : str) : str := rev (lstrip (rev s)).

Definition strip (s : str) : str := rstrip (lstrip s).

(** [sep.join(parts)]. *)
Fixpoint join (sep : str) (parts : list str) : str :=
  match parts with
  | [] => []
  | [p] => p
  | p :: ps => p ++ sep ++ join sep ps
  end.

(** Truthiness of a [str]: non-empty. *)
Definition truthy (s : str) : bool :=
  match s with [] => false | _ :: _ => true end.

(** No leading or trailing whitespace; the empty string qualifies. *)
Definition trimmed (s : str) : Prop := strip s = s.

(** The same, decided on the two ends of the string. *)
Definition first_ok (s : str) : bool :=
  match s with
  | [] => true
  | c :: _ => negb (isspace c)
  end.

Definition trimmedb (s : str) : bool := first_ok s && first_ok (rev s).

End Text.
Import Text.

(** ** The regular expression of [pdf_scraper.py]

    [re.compile(r"([A-Z\s]+):\s+([^.]+)\.")].  The pattern is a sequence of
    single-character tests, each taken once or repeated greedily one or
    more times, two of them captured.  The matcher below is the
    backtracking search of [re] restricted to that grammar. *)

Module Re.

(** Members of a bracketed set. *)
Inductive set_item : Type :=
| SLiteral (c : char)
| SRange (lo hi : char)
| SCategorySpace.

(** A test on one character. *)
Inductive atom : Type :=
| Literal (c : char)
| CategorySpace
| In_ (negate : bool) (items : list set_item).

Definition item_accepts (i : set_item) (c : char) : bool :=
  match i with
  | SLiteral d => (c =? d)%N
  | SRange lo hi => ((lo <=? c) && (c <=? hi))%N
  | SCategorySpace => isspace c
  end.

Definition accepts (a : atom) (c : char) : bool :=
  match a with
  | Literal d => (c =? d)%N
  | CategorySpace => isspace c
  | In_ negate items => xorb negate (existsb (fun i => item_accepts i c) items)
  end.

(** One element of the sequence: the atom once, or [atom+] (greedy). *)
Inductive piece : Type :=
| Once (a : atom)
| MaxRepeat1 (a : atom).

(** A pattern: its pieces in order, each flagged when it is a capturing
    group. *)
Definition regex := list (bool * piece).

(** Length of the longest prefix of [s] whose characters all pass [p]. *)
Fixpoint span (p : char -> bool) (s : str) : nat :=
  match s with
  | [] => 0
  | c :: s' => if p c then S (span p s') else 0
  end.

(** Greedy repetition: try the continuation after [n] characters, then
    after [n - 1], ..., down to one character; first success wins. *)
Fixpoint greedy {A : Type} (n : nat) (k : nat -> option A) : option A :=
  match n with
  | 0 => None
  | S m => match k (S m) with
           | Some r => Some r
           | None => greedy m k
           end
  end.

(** Match [re] at the start of [s]: the substring consumed by each piece,
    and the rest of the text after the match. *)
Fixpoint match_here (re : regex) (s : str) : option (list str * str) :=
  match re with
  | [] => Some ([], s)
  | (_, Once a) :: re' =>
      match s with
      | [] => None
      | c :: s' =>
          if accepts a c then
            match match_here re' s' with
            | Some (parts, rest) => Some ([c] :: parts, rest)
            | None => None
            end
          else None
      end
  | (_, MaxRepeat1 a) :: re' =>
      greedy (span (accepts a) s)
        (fun n => match match_here re' (skipn n s) with
                  | Some (parts, rest) => Some (firstn n s :: parts, rest)
                  | None => None
                  end)
  end.

(** The captured groups among the consumed substrings. *)
Fixpoint groups (re : regex) (parts : list str) : list str :=
  match re, parts with
  | (true, _) :: re', p :: parts' => p :: groups re' parts'
  | (false, _) :: re', _ :: parts' => groups re' parts'
  | _, _ => []
  end.

(** [pattern.findall(text)]: scan left to right; at a position where the
    pattern matches, yield the tuple of groups and resume after the match;
    elsewhere move one character on.  Each step shortens the text left to
    scan, so [S (length s)] steps always suffice. *)
Fixpoint findall_from (fuel : nat) (re : regex) (s : str) : list (list str) :=
  match fuel with
  | 0 => []
  | S fuel' =>
      match match_here re s with
      | Some (parts, rest) => groups re parts :: findall_from fuel' re rest
      | None =>
          match s with
          | [] => []
          | _ :: s' => findall_from fuel' re s'
          end
      end
  end.

Definition findall (re : regex) (s : str) : list (list str) :=
  findall_from (S (length s)) re s.

(** [matches re s parts rest]: [s] starts with a match of [re]; [parts]
    are the substrings taken by the pieces of [re], [rest] what follows. *)
Inductive matches : regex -> str -> list str -> str -> Prop :=
| matches_nil s : matches [] s [] s
| matches_once b a re c s parts rest :
    accepts a c = true ->
    matches re s parts rest ->
    matches ((b, Once a) :: re) (c :: s) ([c] :: parts) rest
| matches_repeat b a re p s parts rest :
    p <> [] ->
    forallb (accepts a) p = true ->
    matches re s parts rest ->
    matches ((b, MaxRepeat1 a) :: re) (p ++ s) (p :: parts) rest.

End Re.

(** ** The BeautifulSoup parse tree *)

Module Bs4.

(** The classes of string nodes the [html.parser] builder creates.  Every
    one of them is an instance of [NavigableString]; [get_text] keeps only
    the first two. *)
Inductive string_type : Type :=
| TNavigableString
| TCData
| TComment
| TOther.   (* Doctype, Declaration, ProcessingInstruction, Script, ... *)

(** A node of the tree.  Of the attributes of a tag only [class] is ever
    queried; it is kept as bs4 keeps it, a list of tokens. *)
#[warnings="-register-all"]
Inductive page_element : Type :=
| NavigableString (ty : string_type) (text : str)
| Tag (name : str) (class_ : list str) (contents : list page_element).

(** A node together with the siblings that follow it under its parent:
    what navigation from a found element needs ([.next_siblings]). *)
Record element : Type := Element
  { node : page_element;
    next_siblings : list page_element }.

(** [.descendants]: every node below [e], in document order. *)
Fixpoint descendants (e : page_element) : list element :=
  match e with
  | NavigableString _ _ => []
  | Tag _ _ contents =>
      (fix walk (l : list page_element) : list element :=
         match l with
         | [] => []
         | c :: l' => Element c l' :: descendants c ++ walk l'
         end) contents
  end.

Definition is_tag (name : str) (e : page_element) : bool :=
  match e with
  | Tag n _ _ => str_eqb n name
  | NavigableString _ _ => false
  end.

(** bs4's match of a multi-valued attribute against one string: some
    token is the string, or the whole value is. *)
Definition has_class (c : str) (e : page_element) : bool :=
  match e with
  | Tag _ cls _ => existsb (fun t => str_eqb t c) cls || str_eqb (join (py " ") cls) c
  | NavigableString _ _ => false
  end.

(** [e.find_all(name)] *)
Definition find_all (e : page_element) (name : str) : list element :=
  List.filter (fun d => is_tag name (node d)) (descendants e).

(** [e.find_all(name, {"class": c})] *)
Definition find_all_class (e : page_element) (name c : str) : list element :=
  List.filter (fun d => is_tag name (node d) && has_class c (node d)) (descendants e).

(** [e.find(name)], also written [e.name]: the first of [find_all], or
    [None]. *)
Definition find (e : page_element) (name : str) : option element :=
  hd_error (find_all e name).

(** [isinstance(e, NavigableString)] *)
Definition is_navigable_string (e : page_element) : bool :=
  match e with
  | NavigableString _ _ => true
  | Tag _ _ _ => false
  end.

(** [str(e)] for a string node (the only use in the scripts). *)
Definition str_of (e : page_element) : str :=
  match e with
  | NavigableString _ text => text
  | Tag _ _ _ => []
  end.

Definition interesting (ty : string_type) : bool :=
  match ty with
  | TNavigableString | TCData => true
  | TComment | TOther => false
  end.

(** The strings [get_text(strip=True)] yields for one descendant. *)
Definition stripped_string (e : page_element) : option str :=
  match e with
  | NavigableString ty text =>
      if interesting ty && truthy (strip text) then Some (strip text) else None
  | Tag _ _ _ => None
  end.

(** [e.get_text(strip=True)]: the interesting strings below [e], each
    stripped, the empty ones dropped, joined with the empty separator. *)
Definition get_text_strip (e : page_element) : str :=
  join [] (omap (fun d => stripped_string (node d)) (descendants e)).

End Bs4.

(** ** Script runs: output files and uncaught exceptions *)

Module Script.

Inductive exn : Type :=
| ConnectionError     (* requests: transport failure *)
| AttributeError      (* attribute access on [None] *)
| ValueError          (* tuple unpacking of the wrong arity *)
| PdfReadError.       (* the PDF cannot be opened or read *)

(** A CSV row as handed to [writer.writerow]: its fields in order. *)
Definition row := list str.

Inductive result (A : Type) : Type :=
| Ok (a : A)
| Raise (e : exn).
Arguments Ok {A} a.
Arguments Raise {A} e.

(** A computation of a script: it transforms the output files (path to
    rows) and returns a value or stops at an uncaught exception.  The
    [with] blocks close the file on every exit, so the rows written before
    an exception stay in the file. *)
Definition script (A : Type) : Type :=
  gmap str (list row) -> result A * gmap str (list row).

Definition ret {A : Type} (a : A) : script A := fun fs => (Ok a, fs).

Definition raise {A : Type} (e : exn) : script A := fun fs => (Raise e, fs).

Definition bind {A B : Type} (c : script A) (k : A -> script B) : script B :=
  fun fs =>
    match c fs with
    | (Ok a, fs') => k a fs'
    | (Raise e, fs') => (Raise e, fs')
    end.

#[global] Instance script_ret : MRet script := @ret.
#[global] Instance script_bind : MBind script := fun A B k c => bind c k.

(** [open(path, "w")]: create or truncate. *)
Definition open_w (path : str) : script unit :=
  fun fs => (Ok tt, <[path := []]> fs).

(** [writer.writerow(r)] on the writer of the file at [path]. *)
Definition writerow (path : str) (r : row) : script unit :=
  fun fs => (Ok tt, <[path := default [] (fs !! path) ++ [r]]> fs).

(** A [for] loop whose body may raise. *)
Fixpoint for_ {A : Type} (l : list A) (body : A -> script unit) : script unit :=
  match l with
  | [] => mret tt
  | x :: l' => body x;; for_ l' body
  end.

(** Attribute access or method call on the result of a lookup that may be
    [None]. *)
Definition deref {A : Type} (o : option A) : script A :=
  match o with
  | Some a => mret a
  | None => raise AttributeError
  end.

(** The network as the scripts see it.  A response carries its status and
    its body; the body is represented by the tree [html.parser] builds
    from it, rooted at the [BeautifulSoup] object. *)
Record Response : Type :=
  { status_code : Z;
    content : Bs4.page_element }.

Inductive fetch : Type :=
| Responded (r : Response)
| Failed.   (* no response: DNS failure, refused connection, timeout *)

(** What a run reads: the network, and the PDF files with their pages'
    extracted text ([None]: missing or unreadable).  A PDF that opens
    yields the text of each of its pages; failures of the output file
    itself (no permission, disk full) are outside the model. *)
Record world : Type :=
  { network : str -> fetch;
    pdf_files : str -> option (list str) }.

(** [requests.get(url)]: raises on a transport failure only. *)
Definition requests_get (w : world) (url : str) : script Response :=
  match network w url with
  | Responded r => mret r
  | Failed => raise ConnectionError
  end.

(** [BeautifulSoup(response.content, "html.parser")] *)
Definition BeautifulSoup (r : Response) : Bs4.page_element := content r.

(** [PdfReader(open(path, "rb"))] and the text of its pages.  The page
    count and the text of every page are taken to be readable once the file
    has been opened: a PDF that fails at [len(pdf_reader.pages)] or at a
    [page.extract_text()], after [terms.csv] was opened, is outside the
    model. *)
Definition PdfReader (w : world) (path : str) : script (list str) :=
  match pdf_files w path with
  | Some pages => mret pages
  | None => raise PdfReadError
  end.

End Script.

Import Bs4 Script.

(** ** owasp_scrape.py *)

Module OwaspScrape.

Definition url : str := py "https://cheatsheetseries.owasp.org/glossary.html".
Definition csvfile : str := py "owasp_terms.csv".
Definition header : row := [py "Term"; py "Definition"].

(** The body of the loop over the sections. *)
Definition section_body (section : element) : script unit :=
  h1 ← deref (find (node section) (py "h1"));
  let term := get_text_strip (node h1) in
  p ← deref (find (node section) (py "p"));
  let definition := get_text_strip (node p) in
  writerow csvfile [term; definition].

Definition owasp_scrape (w : world) : script unit :=
  response ← requests_get w url;
  let soup := BeautifulSoup response in
  open_w csvfile;;
  writerow csvfile header;;
  for_ (find_all_class soup (py "div") (py "section")) section_body.

End OwaspScrape.

(** ** pdf_scraper.py *)

Module PdfScraper.
Import Re.

Definition colon : char := 58%N.
Definition period : char := 46%N.

(** [pattern = re.compile(r"([A-Z\s]+):\s+([^.]+)\.")] *)
Definition pattern : regex :=
  [ (true,  MaxRepeat1 (In_ false [SRange 65%N 90%N; SCategorySpace]));
    (false, Once (Literal colon));
    (false, MaxRepeat1 CategorySpace);
    (true,  MaxRepeat1 (In_ true [SLiteral period]));
    (false, Once (Literal period)) ].

Definition pdf : str := py "NIST.IR.7298r2.pdf".
Definition csvfile : str := py "terms.csv".
Definition header : row := [py "Term"; py "Definition"; py "Source"].

(** [for term, definition in matches: writer.writerow(...)]; unpacking a
    tuple that is not a pair raises. *)
Definition match_body (m : list str) : script unit :=
  match m with
  | [term; definition] => writerow csvfile [term; definition; pdf]
  | _ => raise ValueError
  end.

(** The body of the loop over the pages. *)
Definition page_body (text : str) : script unit :=
  let matches := findall pattern text in
  for_ matches match_body.

Definition pdf_scraper (w : world) : script unit :=
  pages ← PdfReader w pdf;
  open_w csvfile;;
  writerow csvfile header;;
  for_ pages page_body.

End PdfScraper.

(** ** scraper.py *)

Module Scraper.

Definition urls : list str :=
  [ py "https://www.sans.org/security-resources/glossary-of-terms/" ].
Definition csvfile : str := py "terms.csv".
Definition header : row := [py "Term"; py "Definition"; py "Source"].

(** The body of the loop over the paragraphs of a cell. *)
Definition paragraph_body (url : str) (paragraph : element) : script unit :=
  match find (node paragraph) (py "strong") with
  | Some term_tag =>
      let term := get_text_strip (node term_tag) in
      let definition_parts :=
        List.map (fun sibling => strip (str_of sibling))
          (List.filter is_navigable_string (next_siblings term_tag)) in
      let definition :=
        join (py " ") (List.filter truthy definition_parts) in
      if truthy definition
      then writerow csvfile [term; definition; url]
      else mret tt
  | None => mret tt
  end.

(** The body of the loop over the tables. *)
Definition table_body (url : str) (table : element) : script unit :=
  tbody ← deref (find (node table) (py "tbody"));
  let rows := find_all (node tbody) (py "tr") in
  for_ rows (fun row =>
    for_ (find_all (node row) (py "td")) (fun cell =>
      let paragraphs := find_all (node cell) (py "p") in
      for_ paragraphs (paragraph_body url))).

Definition scraper (w : world) : script unit :=
  open_w csvfile;;
  writerow csvfile header;;
  for_ urls (fun url =>
    response ← requests_get w url;
    let soup := BeautifulSoup response in
    let tables := find_all soup (py "table") in
    for_ tables (table_body url)).

End Scraper.

(** ** What the loops write, as functions of the input *)

Module Output.
Import Re.

(** The rows a computation appends to the open file, and how it ends. *)
Definition output : Type := list row * result unit.

(** A loop stops at the first iteration that raises; the rows written
    until then stay. *)
Fixpoint for_output {A : Type} (l : list A) (f : A -> output) : output :=
  match l with
  | [] => ([], Ok tt)
  | x :: l' =>
      match f x with
      | (rows, Ok _) =>
          let '(rows', res) := for_output l' f in (rows ++ rows', res)
      | (rows, Raise e) => (rows, Raise e)
      end
  end.

(** [c] appends [out.1] to the file at [path], already open, touches no
    other file and ends as [out.2]. *)
Definition writes (c : script unit) (path : str) (out : output) : Prop :=
  forall (fs : gmap str (list row)) (old : list row),
    fs !! path = Some old -> c fs = (out.2, <[path := old ++ out.1]> fs).

(** owasp_scrape.py: one section. *)
Definition section_output (section : element) : output :=
  match find (node section) (py "h1") with
  | None => ([], Raise AttributeError)
  | Some h1 =>
      match find (node section) (py "p") with
      | None => ([], Raise AttributeError)
      | Some p => ([[get_text_strip (node h1); get_text_strip (node p)]], Ok tt)
      end
  end.

(** pdf_scraper.py: one match, one page. *)
Definition match_output (m : list str) : output :=
  match m with
  | [term; definition] => ([[term; definition; PdfScraper.pdf]], Ok tt)
  | _ => ([], Raise ValueError)
  end.

Definition page_output (text : str) : output :=
  for_output (findall PdfScraper.pattern text) match_output.

(** The rows of a page when every match unpacks: the two groups and the
    fixed source. *)
Definition page_rows (text : str) : list row :=
  List.map (fun m => m ++ [PdfScraper.pdf]) (findall PdfScraper.pattern text).

(** scraper.py: the stripped text siblings after the term tag. *)
Definition definition_parts (term_tag : element) : list str :=
  List.map (fun sibling => strip (str_of sibling))
    (List.filter is_navigable_string (next_siblings term_tag)).

(** scraper.py: one paragraph, one table body, one table. *)
Definition paragraph_rows (url : str) (paragraph : element) : list row :=
  match find (node paragraph) (py "strong") with
  | Some term_tag =>
      let definition :=
        join (py " ") (List.filter truthy (definition_parts term_tag)) in
      if truthy definition
      then [[get_text_strip (node term_tag); definition; url]]
      else []
  | None => []
  end.

Definition tbody_rows (url : str) (tbody : element) : list row :=
  concat (List.map (fun row =>
    concat (List.map (fun cell =>
      concat (List.map (paragraph_rows url) (find_all (node cell) (py "p"))))
      (find_all (node row) (py "td"))))
    (find_all (node tbody) (py "tr"))).

Definition table_output (url : str) (table : element) : output :=
  match find (node table) (py "tbody") with
  | None => ([], Raise AttributeError)
  | Some tbody => (tbody_rows url tbody, Ok tt)
  end.

(** scraper.py: one URL. *)
Definition url_output (w : world) (url : str) : output :=
  match network w url with
  | Failed => ([], Raise ConnectionError)
  | Responded r =>
      for_output (find_all (content r) (py "table")) (table_output url)
  end.

(** The data rows (all but the header) of the file a run leaves at [path]
    when it starts with no output file. *)
Definition entries (run : script unit) (path : str) : list row :=
  tail (default [] ((run ∅).2 !! path)).

End Output.

(** ** The specification's wording, for comparison with the code *)

Module Spec.

(** *** PatternStrategy: "a maximal run of uppercase letters and
    whitespace, followed by a colon and whitespace, followed by a
    definition that is a run of any non-period characters, terminated by a
    period" *)

Definition uppercase (c : char) : bool := ((65 <=? c) && (c <=? 90))%N.
Definition term_char (c : char) : bool := uppercase c || isspace c.
Definition non_period (c : char) : bool := negb (c =? PdfScraper.period)%N.

(** [s] starts with a match whose term is [t] and definition [d]; [rest]
    follows the terminating period. *)
Definition is_match (s t d rest : str) : Prop :=
  exists ws : str,
    s = t ++ PdfScraper.colon :: ws ++ d ++ PdfScraper.period :: rest /\
    t <> [] /\ forallb term_char t = true /\
    ws <> [] /\ forallb isspace ws = true /\
    d <> [] /\ forallb non_period d = true.

(** The character before a term, if any, cannot extend it. *)
Definition left_boundary (prev : option char) : Prop :=
  match prev with
  | None => True
  | Some c => term_char c = false
  end.

(** "All non-overlapping matches on a page are extracted in left-to-right
    order": [scan prev s l] reads the text [s], which follows the
    character [prev], and lists the matches from the left, each starting
    where no earlier start is possible and after the end of the one
    before. *)
Inductive scan : option char -> str -> list (list str) -> Prop :=
| scan_end prev : scan prev [] []
| scan_skip prev c s l :
    (forall t d rest, ~ is_match (c :: s) t d rest) ->
    scan (Some c) s l ->
    scan prev (c :: s) l
| scan_match prev s t d rest l :
    is_match s t d rest ->
    left_boundary prev ->
    scan (Some PdfScraper.period) rest l ->
    scan prev s ([t; d] :: l).



(** What the code needs of a table: a [tbody] anywhere below it. *)
Definition has_tbody (table : element) : Prop :=
  is_Some (find (node table) (py "tbody")).

(** *** TableStrategy: "every table element contains a tbody child" *)
Definition has_tbody_child (table : page_element) : bool :=
  match table with
  | Tag _ _ contents => existsb (is_tag (py "tbody")) contents
  | NavigableString _ _ => false
  end.

(** *** GlossaryEntry: "term: string (non-empty, whitespace-trimmed),
    definition: string (non-empty, whitespace-trimmed)" *)
Definition glossary_entry (r : row) : Prop :=
  match r with
  | term :: definition :: _ =>
      term <> [] /\ trimmed term /\ definition <> [] /\ trimmed definition
  | _ => False
  end.

(** *** SectionStrategy: "the term is the trimmed text content of the
    section's first heading element; the definition is the trimmed text
    content of the section's first paragraph element" *)
Definition section_entry (section : element) (r : row) : Prop :=
  exists h1 p : element,
    find (node section) (py "h1") = Some h1 /\
    find (node section) (py "p") = Some p /\
    r = [get_text_strip (node h1); get_text_strip (node p)].

(** A section "with a heading and a paragraph". *)
Definition complete_section (section : element) : Prop :=
  is_Some (find (node section) (py "h1")) /\ is_Some (find (node section) (py "p")).

(** "each having at least one heading element and at least one paragraph
    element": a heading of any level. *)
Definition is_heading (e : page_element) : bool :=
  match e with
  | Tag name _ _ =>
      existsb (str_eqb name)
        [py "h1"; py "h2"; py "h3"; py "h4"; py "h5"; py "h6"]
  | NavigableString _ _ => false
  end.

Definition has_heading_and_paragraph (section : element) : bool :=
  existsb (fun d => is_heading (node d)) (descendants (node section)) &&
  existsb (fun d => is_tag (py "p") (node d)) (descendants (node section)).

(** *** Fetch: two answers that differ at most in their status *)
Definition same_body (a b : fetch) : Prop :=
  match a, b with
  | Responded r, Responded r' => content r = content r'
  | Failed, Failed => True
  | _, _ => False
  end.

(** *** Idempotence: "running the same extraction twice over
    byte-identical input produces byte-identical ordered output".  How the
    run ends and the rows of its output file are fixed by the input alone:
    either the run stops before it opens the file, or it leaves the same
    rows there whatever the files held before. *)
Definition deterministic (run : script unit) (path : str) : Prop :=
  exists res : result unit,
    (forall fs, run fs = (res, fs)) \/
    (exists rows : list row, forall fs, run fs = (res, <[path := rows]> fs)).

(** *** SectionStrategy: "skip the section [missing a heading or
    paragraph] and continue" *)
Definition skip_and_continue (sections : list element) : list row :=
  concat (List.map (fun section => (Output.section_output section).1) sections).

End Spec.

(** ** Conditions on a page text *)

Module PageText.

(** Some colon of the text stands directly after an uppercase letter or a
    whitespace character: what the first group of the pattern, followed by
    its colon, needs. *)
Fixpoint term_before_colon (s : str) : bool :=
  match s with
  | c :: (c' :: _) as s' =>
      (Spec.term_char c && (c' =? PdfScraper.colon)%N) || term_before_colon s'
  | _ => false
  end.

(** A match in which the whitespace after the colon is as long as the
    pattern allows: the definition starts with a whitespace character only
    when it is that single character. *)
Definition is_greedy_match (s t d rest : str) : Prop :=
  Spec.is_match s t d rest /\
  forall c d', d = c :: d' -> isspace c = true -> d' = [].

End PageText.

(** ** Concrete inputs *)

Module Examples.

(** The page text of the specification's PatternStrategy example. *)
Definition example_page : str :=
  py "CONFIDENTIALITY: the property of being accessible only to authorized parties. INTEGRITY: the assurance of data accuracy.".

(** No network; the PDF has the given pages. *)
Definition pdf_world (pages : list str) : world :=
  {| network := fun _ => Failed;
     pdf_files := fun path =>
       if str_eqb path PdfScraper.pdf then Some pages else None |}.

(** Every URL answers with the given status and page; no PDF. *)
Definition web_world (status : Z) (soup : page_element) : world :=
  {| network := fun _ => Responded {| status_code := status; content := soup |};
     pdf_files := fun _ => None |}.

(** Nothing answers. *)
Definition offline_world : world :=
  {| network := fun _ => Failed; pdf_files := fun _ => None |}.

Definition text (s : string) : page_element := NavigableString TNavigableString (py s).
Arguments text s%_string.

Definition tag (name : string) (contents : list page_element) : page_element :=
  Tag (py name) [] contents.
Arguments tag name%_string contents.

Definition document (contents : list page_element) : page_element :=
  Tag (py "[document]") [] contents.

(** [<div class="section">...</div>] *)
Definition section (contents : list page_element) : page_element :=
  Tag (py "div") [py "section"] contents.

(** Three sections; the second has no heading. *)
Definition section_xss : page_element :=
  section [tag "h1" [text "XSS"]; tag "p" [text " Cross-site scripting. "]].
Definition section_untitled : page_element :=
  section [tag "p" [text "A paragraph without a heading."]].
Definition section_csrf : page_element :=
  section [tag "h1" [text "CSRF"]; tag "p" [text "Cross-site request forgery."]].

Definition glossary_page : page_element :=
  document [section_xss; section_csrf].
Definition broken_glossary_page : page_element :=
  document [section_xss; section_untitled; section_csrf].

(** A glossary paragraph whose definition runs over line breaks, with a
    blank line in between. *)
Definition worm_paragraph : page_element :=
  tag "p" [ tag "strong" [text "Worm"];
            text " self-replicating"; tag "br" [];
            text " "; tag "br" [];
            text "malware " ].

Definition table_page (paragraph : page_element) : page_element :=
  document [tag "table" [tag "tbody" [tag "tr" [tag "td" [paragraph]]]]].

(** A table laid out without a [tbody] of its own, holding a nested table
    that has one. *)
Definition inner_table : page_element :=
  tag "table" [tag "tbody" [tag "tr" [tag "td"
    [tag "p" [tag "strong" [text "Worm"]; text " malware"]]]]].
Definition outer_table : page_element :=
  tag "table" [tag "tr" [tag "td" [inner_table]]].
Definition nested_page : page_element := document [outer_table].

(** A table with no [tbody] at all. *)
Definition bare_page : page_element :=
  document [tag "table" [tag "tr" [tag "td"
    [tag "p" [tag "strong" [text "Worm"]; text " malware"]]]]].

Definition sans_url : str :=
  py "https://www.sans.org/security-resources/glossary-of-terms/".

(** A glossary line whose term is not in capitals, and one whose
    definition lacks its final period. *)
Definition mixed_case_page : str :=
  py "Firewall: a device that filters traffic.".
Definition unterminated_page : str :=
  py "FIREWALL: a device that filters traffic".

(** The body of [inner_table], and a table body that holds [inner_table]
    in one of its cells. *)
Definition inner_body : page_element :=
  tag "tbody" [tag "tr" [tag "td"
    [tag "p" [tag "strong" [text "Worm"]; text " malware"]]]].
Definition enclosing_body : page_element :=
  tag "tbody" [tag "tr" [tag "td" [inner_table]]].

(** A table whose own body holds [inner_table] in one of its cells. *)
Definition enclosing_table : page_element := tag "table" [enclosing_body].
Definition enclosing_page : page_element := document [enclosing_table].

(** A section headed by an [h2]. *)
Definition section_h2 : page_element :=
  section [tag "h2" [text "XSS"]; tag "p" [text "Cross-site scripting."]].
Definition h2_page : page_element := document [section_h2].

(** What is left of a third entry when the page breaks off. *)
Definition cut_off_tail : str := py " AVAILABILITY: the property of being".

(** Files that hold something unrelated before a run. *)
Definition notes_file : str := py "notes.csv".
Definition kept_files : gmap str (list row) := {[ notes_file := [[py "kept"]] ]}.

End Examples.

(** * Properties *)

(** ** Stripping and joining *)

Section TextFacts.

Lemma lstrip_suffix (s : str) :
  exists ws, s = ws ++ lstrip s /\ forallb isspace ws = true.
Proof.
  induction s as [|c s [ws [Hs Hws]]]; simpl.
  - exists []. split; reflexivity.
  - destruct (isspace c) eqn:Hc.
    + exists (c :: ws). simpl. rewrite Hc, Hws. split; [congruence | reflexivity].
    + exists []. split; reflexivity.
Qed.

Lemma lstrip_fix (s : str) : first_ok s = true -> lstrip s = s.
Proof.
  destruct s as [|c s]; simpl; [reflexivity|].
  destruct (isspace c); [discriminate | reflexivity].
Qed.

Lemma first_ok_lstrip (s : str) : first_ok (lstrip s) = true.
Proof.
  induction s as [|c s IH]; simpl; [reflexivity|].
  destruct (isspace c) eqn:Hc; [exact IH | simpl; now rewrite Hc].
Qed.


Lemma forallb_rev (p : char -> bool) (s : str) :
  forallb p (rev s) = forallb p s.
Proof.
  induction s as [|c s IH]; simpl; [reflexivity|].
  rewrite forallb_app, IH. simpl. rewrite andb_true_r. apply andb_comm.
Qed.

Lemma rstrip_prefix (s : str) :
  exists ws, s = rstrip s ++ ws /\ forallb isspace ws = true.
Proof.
  destruct (lstrip_suffix (rev s)) as [ws [Hs Hws]].
  exists (rev ws). split.
  - unfold rstrip. rewrite <- rev_app_distr, <- Hs. symmetry. apply rev_involutive.
  - rewrite forallb_rev. exact Hws.
Qed.

Lemma rstrip_fix (s : str) : first_ok (rev s) = true -> rstrip s = s.
Proof.
  intros H. unfold rstrip. rewrite (lstrip_fix _ H). apply rev_involutive.
Qed.

Lemma first_ok_rev_rstrip (s : str) : first_ok (rev (rstrip s)) = true.
Proof. unfold rstrip. rewrite rev_involutive. apply first_ok_lstrip. Qed.

Lemma first_ok_rstrip (s : str) : first_ok s = true -> first_ok (rstrip s) = true.
Proof.
  intros H. destruct (rstrip_prefix s) as [ws [Hs _]].
  destruct (rstrip s) as [|c x]; [reflexivity|].
  rewrite Hs in H. exact H.
Qed.

Lemma trimmedb_strip (s : str) : trimmedb (strip s) = true.
Proof.
  unfold trimmedb, strip. apply andb_true_iff. split.
  - apply first_ok_rstrip, first_ok_lstrip.
  - apply first_ok_rev_rstrip.
Qed.

Lemma trimmedb_trimmed (s : str) : trimmedb s = true <-> trimmed s.
Proof.
  unfold trimmed. split.
  - intros [H1 H2]%andb_true_iff. unfold strip.
    rewrite (lstrip_fix _ H1). apply rstrip_fix, H2.
  - intros H. rewrite <- H. apply trimmedb_strip.
Qed.

Lemma strip_idempotent (s : str) : trimmed (strip s).
Proof. apply trimmedb_trimmed, trimmedb_strip. Qed.


Lemma first_ok_app (a b : str) : a <> [] -> first_ok (a ++ b) = first_ok a.
Proof. destruct a; [congruence | reflexivity]. Qed.

Lemma rev_not_nil (a : str) : a <> [] -> rev a <> [].
Proof.
  intros H E. apply H. rewrite <- (rev_involutive a), E. reflexivity.
Qed.

(** Joining non-empty stripped pieces, with any separator, leaves no
    whitespace at either end. *)
Lemma trimmedb_join (sep : str) (ps : list str) :
  Forall (fun p => p <> [] /\ trimmedb p = true) ps ->
  trimmedb (join sep ps) = true /\ (ps <> [] -> join sep ps <> []).
Proof.
  induction 1 as [|p ps [Hne Hp] Hps [IHt IHn]]; [split; [reflexivity | intros H; now elim H]|].
  destruct ps as [|q qs].
  - simpl. split; [exact Hp | intros _; exact Hne].
  - change (join sep (p :: q :: qs)) with (p ++ sep ++ join sep (q :: qs)).
    assert (HJ : join sep (q :: qs) <> []) by (apply IHn; congruence).
    apply andb_true_iff in Hp as [Hp1 Hp2].
    apply andb_true_iff in IHt as [IH1 IH2].
    split.
    + unfold trimmedb. rewrite first_ok_app by exact Hne. rewrite Hp1. simpl.
      rewrite !rev_app_distr, <- app_assoc.
      rewrite first_ok_app by (apply rev_not_nil, HJ). exact IH2.
    + intros _ E. apply app_eq_nil in E as [E _]. contradiction.
Qed.

Lemma truthy_true (s : str) : truthy s = true <-> s <> [].
Proof. destruct s; simpl; split; congruence. Qed.


End TextFacts.

(** ** The matcher against a declarative reading of the pattern *)

Section ReFacts.
Import Re.

Lemma span_firstn (p : char -> bool) (s : str) (m : nat) :
  m <= span p s -> forallb p (firstn m s) = true /\ length (firstn m s) = m.
Proof.
  revert m. induction s as [|c s IH]; intros m Hm; simpl in Hm.
  - assert (m = 0) as -> by lia. split; reflexivity.
  - destruct m as [|m]; [split; reflexivity|].
    destruct (p c) eqn:Hc; [|lia].
    destruct (IH m) as [H1 H2]; [lia|].
    simpl. rewrite Hc, H1, H2. split; reflexivity.
Qed.

Lemma span_app (p : char -> bool) (x s : str) :
  forallb p x = true -> length x <= span p (x ++ s).
Proof.
  induction x as [|c x IH]; simpl; [lia|].
  intros [Hc Hx]%andb_true_iff. rewrite Hc. specialize (IH Hx). lia.
Qed.

Lemma greedy_some {A : Type} (n : nat) (k : nat -> option A) (r : A) :
  greedy n k = Some r -> exists m, 1 <= m <= n /\ k m = Some r.
Proof.
  induction n as [|n IH]; simpl; [discriminate|].
  destruct (k (S n)) eqn:Hk.
  - intros [= <-]. exists (S n). split; [lia | exact Hk].
  - intros H. destruct (IH H) as [m [Hm Hkm]]. exists m. split; [lia | exact Hkm].
Qed.

Lemma greedy_none {A : Type} (n : nat) (k : nat -> option A) :
  greedy n k = None -> forall m, 1 <= m <= n -> k m = None.
Proof.
  induction n as [|n IH]; simpl; intros H m Hm; [lia|].
  destruct (k (S n)) eqn:Hk; [discriminate|].
  destruct (Nat.eq_dec m (S n)) as [->|Hne]; [exact Hk|].
  apply IH; [exact H | lia].
Qed.

Lemma match_here_sound (re : regex) (s : str) (parts : list str) (rest : str) :
  match_here re s = Some (parts, rest) -> matches re s parts rest.
Proof.
  revert s parts rest.
  induction re as [|[b [a|a]] re IH]; intros s parts rest; simpl.
  - intros [= <- <-]. constructor.
  - destruct s as [|c s]; [discriminate|].
    destruct (accepts a c) eqn:Hc; [|discriminate].
    destruct (match_here re s) as [[ps r]|] eqn:Hm; [|discriminate].
    intros [= <- <-]. constructor; [exact Hc | apply IH, Hm].
  - intros H. apply greedy_some in H as [m [Hm Hk]].
    destruct (match_here re (skipn m s)) as [[ps r]|] eqn:Hre; [|discriminate].
    injection Hk as <- <-.
    destruct (span_firstn (accepts a) s m) as [Hall Hlen]; [lia|].
    rewrite <- (firstn_skipn m s) at 1.
    constructor; [|exact Hall|apply IH, Hre].
    intros E. rewrite E in Hlen. simpl in Hlen. lia.
Qed.

Lemma match_here_complete (re : regex) (s : str) (parts : list str) (rest : str) :
  matches re s parts rest -> match_here re s <> None.
Proof.
  induction 1 as [s|b a re c s parts rest Hc _ IH|b a re p s parts rest Hne Hall _ IH];
    simpl.
  - discriminate.
  - rewrite Hc. destruct (match_here re s) as [[ps r]|]; [discriminate | contradiction].
  - intros Hg.
    assert (Hlen : 1 <= length p <= span (accepts a) (p ++ s)).
    { split; [destruct p; simpl; [congruence | lia] | apply span_app, Hall]. }
    pose proof (greedy_none _ _ Hg (length p) Hlen) as Hk. cbv beta in Hk.
    rewrite skipn_app, skipn_all, Nat.sub_diag, skipn_O in Hk. simpl in Hk.
    destruct (match_here re s) as [[ps r]|]; [discriminate Hk | now apply IH].
Qed.

Lemma matches_shorter (re : regex) (s : str) (parts : list str) (rest : str) :
  matches re s parts rest -> length rest <= length s /\ (re <> [] -> length rest < length s).
Proof.
  induction 1 as [s|b a re c s parts rest _ _ [IH _]|b a re p s parts rest Hne _ _ [IH _]].
  - split; [lia | congruence].
  - simpl. split; intros; lia.
  - rewrite length_app. destruct p; [congruence|]. simpl. split; intros; lia.
Qed.

(** Fuel beyond the length of the text changes nothing. *)
Lemma findall_from_enough (re : regex) (n m : nat) (s : str) :
  re <> [] -> length s < n -> length s < m ->
  findall_from n re s = findall_from m re s.
Proof.
  intros Hre. revert m s. induction n as [|n IH]; intros m s Hn Hm; [lia|].
  destruct m as [|m]; [lia|]. simpl.
  destruct (match_here re s) as [[parts rest]|] eqn:Hmatch.
  - apply match_here_sound, matches_shorter in Hmatch as [_ Hlt].
    specialize (Hlt Hre). f_equal. apply IH; lia.
  - destruct s as [|c s]; [reflexivity|]. simpl in *. apply IH; lia.
Qed.

(** The scan, one step at a time. *)
Lemma findall_unfold (re : regex) (s : str) :
  re <> [] ->
  findall re s =
    match match_here re s with
    | Some (parts, rest) => groups re parts :: findall re rest
    | None => match s with
              | [] => []
              | _ :: s' => findall re s'
              end
    end.
Proof.
  intros Hre. unfold findall at 1. simpl.
  destruct (match_here re s) as [[parts rest]|] eqn:Hmatch.
  - apply match_here_sound, matches_shorter in Hmatch as [_ Hlt].
    specialize (Hlt Hre). f_equal. apply findall_from_enough; [exact Hre|lia..].
  - destruct s as [|c s]; reflexivity.
Qed.

End ReFacts.

(** ** Loops and the rows they write *)

Section ScriptFacts.
Import Output.

Lemma writes_ret (path : str) : writes (mret tt) path ([], Ok tt).
Proof.
  intros fs old Hfs. cbn. rewrite app_nil_r, insert_id by exact Hfs. reflexivity.
Qed.

Lemma writes_raise (path : str) (e : exn) : writes (raise e) path ([], Raise e).
Proof.
  intros fs old Hfs. cbn. rewrite app_nil_r, insert_id by exact Hfs. reflexivity.
Qed.

Lemma writes_writerow (path : str) (r : row) :
  writes (writerow path r) path ([r], Ok tt).
Proof. intros fs old Hfs. unfold writerow. rewrite Hfs. reflexivity. Qed.

Lemma writes_seq_ok (c k : script unit) (path : str)
    (rows1 rows2 : list row) (res : result unit) :
  writes c path (rows1, Ok tt) ->
  writes k path (rows2, res) ->
  writes (c;; k) path (rows1 ++ rows2, res).
Proof.
  intros Hc Hk fs old Hfs. unfold mbind, script_bind, bind.
  rewrite (Hc fs old Hfs). cbn.
  rewrite (Hk _ (old ++ rows1)) by apply lookup_insert_eq. cbn.
  rewrite insert_insert_eq, app_assoc. reflexivity.
Qed.

Lemma writes_seq_raise (c k : script unit) (path : str)
    (rows : list row) (e : exn) :
  writes c path (rows, Raise e) ->
  writes (c;; k) path (rows, Raise e).
Proof.
  intros Hc fs old Hfs. unfold mbind, script_bind, bind.
  rewrite (Hc fs old Hfs). reflexivity.
Qed.

(** A loop writes what its iterations write, up to the first that raises. *)
Lemma writes_for {A : Type} (l : list A) (body : A -> script unit)
    (f : A -> output) (path : str) :
  (forall x, In x l -> writes (body x) path (f x)) ->
  writes (for_ l body) path (for_output l f).
Proof.
  induction l as [|x l IH]; intros Hbody; simpl.
  - apply writes_ret.
  - pose proof (Hbody x (or_introl eq_refl)) as Hx.
    assert (Hl : writes (for_ l body) path (for_output l f))
      by (apply IH; intros y Hy; apply Hbody; right; exact Hy).
    destruct (f x) as [rows [[]|e]].
    + destruct (for_output l f) as [rows' res]. apply writes_seq_ok; assumption.
    + apply writes_seq_raise; assumption.
Qed.

(** An iteration that cannot raise contributes its rows to the loop. *)
Lemma for_output_ok {A : Type} (l : list A) (f : A -> output) (g : A -> list row) :
  (forall x, In x l -> f x = (g x, Ok tt)) ->
  for_output l f = (concat (List.map g l), Ok tt).
Proof.
  induction l as [|x l IH]; intros Hf; simpl; [reflexivity|].
  rewrite (Hf x) by (left; reflexivity).
  rewrite IH by (intros y Hy; apply Hf; right; exact Hy). reflexivity.
Qed.

(** The loop stops at the first iteration that raises. *)
Lemma for_output_raise {A : Type} (l1 l2 : list A) (x : A) (f : A -> output)
    (g : A -> list row) (rows : list row) (e : exn) :
  (forall y, In y l1 -> f y = (g y, Ok tt)) ->
  f x = (rows, Raise e) ->
  for_output (l1 ++ x :: l2) f = (concat (List.map g l1) ++ rows, Raise e).
Proof.
  induction l1 as [|y l1 IH]; intros Hf Hx; simpl.
  - rewrite Hx. reflexivity.
  - rewrite (Hf y) by (left; reflexivity).
    rewrite IH by (try (intros z Hz; apply Hf; right); assumption).
    rewrite app_assoc. reflexivity.
Qed.

(** A loop's rows all come from its iterations. *)
Lemma for_output_Forall {A : Type} (l : list A) (f : A -> output) (P : row -> Prop) :
  (forall x, In x l -> Forall P (f x).1) ->
  Forall P (for_output l f).1.
Proof.
  induction l as [|x l IH]; intros Hf; simpl; [constructor|].
  pose proof (Hf x (or_introl eq_refl)) as Hx.
  assert (Hl : Forall P (for_output l f).1)
    by (apply IH; intros y Hy; apply Hf; right; exact Hy).
  destruct (f x) as [rows [[]|e]]; [|exact Hx].
  destruct (for_output l f) as [rows' res]. apply Forall_app. split; assumption.
Qed.

(** Opening the file, writing the header, then a computation that only
    appends. *)
Lemma open_header_writes (c : script unit) (path : str) (hdr : row) (out : output)
    (fs : gmap str (list row)) :
  writes c path out ->
  (open_w path;; writerow path hdr;; c) fs = (out.2, <[path := hdr :: out.1]> fs).
Proof.
  intros Hc. unfold mbind, script_bind, bind, open_w, writerow.
  rewrite lookup_insert_eq. cbn. rewrite insert_insert_eq.
  rewrite (Hc _ [hdr]) by apply lookup_insert_eq.
  rewrite insert_insert_eq. reflexivity.
Qed.

End ScriptFacts.

(** ** The three runs, end to end *)

Section Runs.
Import Output.

Lemma section_body_writes (section : element) :
  writes (OwaspScrape.section_body section) OwaspScrape.csvfile (section_output section).
Proof.
  unfold OwaspScrape.section_body, section_output.
  destruct (find (node section) (py "h1")) as [h1|];
    [destruct (find (node section) (py "p")) as [p|]|].
  - apply writes_writerow.
  - apply writes_raise.
  - apply writes_raise.
Qed.

(** owasp_scrape.py: the fetch comes first; the file is opened only after
    it succeeded. *)
Lemma owasp_scrape_run (w : world) (fs : gmap str (list row)) :
  OwaspScrape.owasp_scrape w fs =
    match network w OwaspScrape.url with
    | Failed => (Raise ConnectionError, fs)
    | Responded r =>
        let out := for_output
          (find_all_class (content r) (py "div") (py "section")) section_output in
        (out.2, <[OwaspScrape.csvfile := OwaspScrape.header :: out.1]> fs)
    end.
Proof.
  unfold OwaspScrape.owasp_scrape, requests_get.
  destruct (network w OwaspScrape.url) as [r|]; [|reflexivity].
  apply (open_header_writes _ OwaspScrape.csvfile OwaspScrape.header).
  apply writes_for. intros section _. apply section_body_writes.
Qed.

Lemma match_body_writes (m : list str) :
  writes (PdfScraper.match_body m) PdfScraper.csvfile (match_output m).
Proof.
  unfold PdfScraper.match_body, match_output.
  destruct m as [|t [|d [|x m]]];
    first [apply writes_writerow | apply writes_raise].
Qed.

Lemma page_body_writes (text : str) :
  writes (PdfScraper.page_body text) PdfScraper.csvfile (page_output text).
Proof. apply writes_for. intros m _. apply match_body_writes. Qed.

(** pdf_scraper.py: the PDF is opened and read before the CSV file. *)
Lemma pdf_scraper_run (w : world) (fs : gmap str (list row)) :
  PdfScraper.pdf_scraper w fs =
    match pdf_files w PdfScraper.pdf with
    | None => (Raise PdfReadError, fs)
    | Some pages =>
        let out := for_output pages page_output in
        (out.2, <[PdfScraper.csvfile := PdfScraper.header :: out.1]> fs)
    end.
Proof.
  unfold PdfScraper.pdf_scraper, PdfReader.
  destruct (pdf_files w PdfScraper.pdf) as [pages|]; [|reflexivity].
  apply (open_header_writes _ PdfScraper.csvfile PdfScraper.header).
  apply writes_for. intros text _. apply page_body_writes.
Qed.

Lemma paragraph_body_writes (url : str) (paragraph : element) :
  writes (Scraper.paragraph_body url paragraph) Scraper.csvfile
    (paragraph_rows url paragraph, Ok tt).
Proof.
  unfold Scraper.paragraph_body, paragraph_rows, definition_parts.
  destruct (find (node paragraph) (py "strong")) as [term_tag|];
    [|apply writes_ret].
  cbv zeta.
  destruct (truthy _); [apply writes_writerow | apply writes_ret].
Qed.

Lemma table_body_writes (url : str) (table : element) :
  writes (Scraper.table_body url table) Scraper.csvfile (table_output url table).
Proof.
  unfold Scraper.table_body, table_output.
  destruct (find (node table) (py "tbody")) as [tbody|]; [|apply writes_raise].
  unfold tbody_rows.
  rewrite <- (for_output_ok (find_all (node tbody) (py "tr"))
    (fun row => (concat (List.map (fun cell =>
       concat (List.map (paragraph_rows url) (find_all (node cell) (py "p"))))
       (find_all (node row) (py "td"))), Ok tt)) _) by reflexivity.
  apply writes_for. intros row _.
  rewrite <- (for_output_ok (find_all (node row) (py "td"))
    (fun cell => (concat (List.map (paragraph_rows url)
       (find_all (node cell) (py "p"))), Ok tt)) _) by reflexivity.
  apply writes_for. intros cell _.
  rewrite <- (for_output_ok (find_all (node cell) (py "p"))
    (fun paragraph => (paragraph_rows url paragraph, Ok tt)) _) by reflexivity.
  apply writes_for. intros paragraph _. apply paragraph_body_writes.
Qed.

(** scraper.py: the file is opened and the header written before the
    first fetch. *)
Lemma scraper_run (w : world) (fs : gmap str (list row)) :
  Scraper.scraper w fs =
    let out := for_output Scraper.urls (url_output w) in
    (out.2, <[Scraper.csvfile := Scraper.header :: out.1]> fs).
Proof.
  unfold Scraper.scraper.
  apply (open_header_writes _ Scraper.csvfile Scraper.header).
  apply writes_for. intros url _. unfold url_output, requests_get.
  destruct (network w url) as [r|]; [|apply writes_raise].
  apply writes_for. intros table _. apply table_body_writes.
Qed.

End Runs.

(** ** The pattern of pdf_scraper.py *)

Section PatternFacts.
Import Re Output Spec.
Import PdfScraper.

Lemma accepts_term (c : char) :
  accepts (In_ false [SRange 65%N 90%N; SCategorySpace]) c = term_char c.
Proof. unfold term_char, uppercase. simpl. rewrite orb_false_r. reflexivity. Qed.

Lemma accepts_non_period (c : char) :
  accepts (In_ true [SLiteral period]) c = non_period c.
Proof. unfold non_period. simpl. rewrite orb_false_r. reflexivity. Qed.

Lemma forallb_ext_eq (p q : char -> bool) (s : str) :
  (forall c, p c = q c) -> forallb p s = forallb q s.
Proof. intros H. induction s as [|c s IH]; simpl; [reflexivity|]. now rewrite H, IH. Qed.

(** A match of the pattern, part by part. *)
Lemma pattern_matches_inv (s : str) (parts : list str) (rest : str) :
  matches pattern s parts rest ->
  exists t ws d,
    parts = [t; [colon]; ws; d; [period]] /\
    s = t ++ colon :: ws ++ d ++ period :: rest /\
    t <> [] /\ forallb term_char t = true /\
    ws <> [] /\ forallb isspace ws = true /\
    d <> [] /\ forallb non_period d = true.
Proof.
  unfold pattern. intros H.
  inversion H as [| |b1 a1 re1 t s1 parts1 rest1 Ht Htall H1]; subst; clear H.
  inversion H1 as [|b2 a2 re2 c2 s2 parts2 rest2 Hc2 H2|]; subst; clear H1.
  inversion H2 as [| |b3 a3 re3 ws s3 parts3 rest3 Hws Hwsall H3]; subst; clear H2.
  inversion H3 as [| |b4 a4 re4 d s4 parts4 rest4 Hd Hdall H4]; subst; clear H3.
  inversion H4 as [|b5 a5 re5 c5 s5 parts5 rest5 Hc5 H5|]; subst; clear H4.
  inversion H5; subst; clear H5.
  simpl in Hc2, Hc5. apply N.eqb_eq in Hc2, Hc5. subst c2 c5.
  exists t, ws, d.
  rewrite (forallb_ext_eq _ _ _ accepts_term) in Htall.
  rewrite (forallb_ext_eq _ _ _ accepts_non_period) in Hdall.
  change (forallb (accepts CategorySpace) ws) with (forallb isspace ws) in Hwsall.
  auto 10.
Qed.

Lemma is_match_matches (s t d rest : str) :
  is_match s t d rest ->
  exists ws, matches pattern s [t; [colon]; ws; d; [period]] rest.
Proof.
  intros (ws & -> & Ht & Htall & Hws & Hwsall & Hd & Hdall). exists ws.
  unfold pattern.
  apply matches_repeat;
    [exact Ht | rewrite (forallb_ext_eq _ _ _ accepts_term); exact Htall |].
  apply matches_once; [reflexivity|].
  apply matches_repeat; [exact Hws | exact Hwsall |].
  apply matches_repeat;
    [exact Hd | rewrite (forallb_ext_eq _ _ _ accepts_non_period); exact Hdall |].
  apply matches_once; [reflexivity|]. apply matches_nil.
Qed.

(** Where the matcher succeeds there is a match, and the tuple it yields
    is the term and the definition. *)
Lemma match_here_is_match (s : str) (parts : list str) (rest : str) :
  match_here pattern s = Some (parts, rest) ->
  exists t d, groups pattern parts = [t; d] /\ is_match s t d rest.
Proof.
  intros H. apply match_here_sound, pattern_matches_inv in H.
  destruct H as (t & ws & d & -> & Hs & H). exists t, d.
  split; [reflexivity|]. exists ws. split; [exact Hs | exact H].
Qed.

(** Where the matcher fails there is no match: backtracking tries every
    split. *)
Lemma match_here_no_match (s : str) :
  match_here pattern s = None -> forall t d rest, ~ is_match s t d rest.
Proof.
  intros H t d rest [ws Hm]%is_match_matches.
  exact (match_here_complete _ _ _ _ Hm H).
Qed.

Lemma is_match_shorter (s t d rest : str) :
  is_match s t d rest -> length rest < length s.
Proof.
  intros (ws & -> & _). rewrite !length_app. simpl. rewrite !length_app. simpl. lia.
Qed.

(** A term character in front of a match extends the match. *)
Lemma is_match_extend (c : char) (s t d rest : str) :
  term_char c = true -> is_match s t d rest -> is_match (c :: s) (c :: t) d rest.
Proof.
  intros Hc (ws & -> & Ht & Htall & H). exists ws.
  split; [reflexivity|]. split; [discriminate|]. split; [|exact H].
  simpl. rewrite Hc. exact Htall.
Qed.

Lemma pattern_not_nil : pattern <> [].
Proof. discriminate. Qed.

(** The scan of the code is the scan of the specification. *)
Lemma findall_from_scan (n : nat) (prev : option char) (s : str) :
  length s < n ->
  match prev with
  | None => True
  | Some c => term_char c = true -> forall t d rest, ~ is_match (c :: s) t d rest
  end ->
  scan prev s (findall_from n pattern s).
Proof.
  revert prev s. induction n as [|n IH]; intros prev s Hn Hprev; [lia|].
  cbn [findall_from]. destruct (match_here pattern s) as [[parts rest]|] eqn:Hm.
  - destruct (match_here_is_match _ _ _ Hm) as (t & d & -> & His).
    apply scan_match with (rest := rest).
    + exact His.
    + destruct prev as [c|]; [|exact I]. simpl.
      destruct (term_char c) eqn:Hc; [|reflexivity].
      exfalso. exact (Hprev eq_refl _ _ _ (is_match_extend _ _ _ _ _ Hc His)).
    + apply IH; [apply is_match_shorter in His; lia | discriminate].
  - destruct s as [|c s]; [apply scan_end|].
    pose proof (match_here_no_match _ Hm) as Hno.
    apply scan_skip; [exact Hno|].
    apply IH; [simpl in Hn; lia | intros _; exact Hno].
Qed.

Lemma findall_scan (text : str) : scan None text (findall pattern text).
Proof. apply findall_from_scan; [lia | exact I]. Qed.

(** Every tuple of a scan is a term and a definition of the stated shape. *)
Lemma scan_entries (prev : option char) (s : str) (l : list (list str)) :
  scan prev s l ->
  Forall (fun m => exists t d, m = [t; d] /\
            t <> [] /\ forallb term_char t = true /\
            d <> [] /\ forallb non_period d = true) l.
Proof.
  induction 1 as [prev|prev c s l _ _ IH|prev s t d rest l Hm _ _ IH];
    [constructor | exact IH |].
  constructor; [|exact IH].
  destruct Hm as (ws & _ & Ht & Htall & _ & _ & Hd & Hdall).
  exists t, d. auto.
Qed.

(** Unpacking never fails: a page writes one row per match. *)
Lemma page_output_rows (text : str) : page_output text = (page_rows text, Ok tt).
Proof.
  unfold page_output, page_rows.
  rewrite (for_output_ok _ _ (fun m => [m ++ [pdf]])).
  - f_equal. induction (findall pattern text) as [|m l IH]; simpl; [reflexivity|].
    now rewrite IH.
  - intros m Hm.
    pose proof (scan_entries _ _ _ (findall_scan text)) as Hall.
    rewrite Forall_forall in Hall. apply list_elem_of_In in Hm.
    destruct (Hall m Hm) as (t & d & -> & _). reflexivity.
Qed.

(** The rows of a page: the two groups, of the shape the pattern forces,
    and the file name. *)
Lemma page_rows_shape (text : str) :
  Forall (fun r => exists t d : str,
            r = [t; d; pdf] /\
            t <> [] /\ forallb term_char t = true /\
            d <> [] /\ forallb non_period d = true)
    (page_rows text).
Proof.
  unfold page_rows.
  pose proof (scan_entries _ _ _ (findall_scan text)) as Hall.
  induction Hall as [|m l (t & d & -> & H) _ IH]; simpl; constructor; [|exact IH].
  exists t, d. split; [reflexivity | exact H].
Qed.

End PatternFacts.

(** ** Text of elements and of definitions *)

Section Bs4Facts.
Import Output Spec.

Lemma stripped_string_ok (e : page_element) (p : str) :
  stripped_string e = Some p -> p <> [] /\ trimmedb p = true.
Proof.
  destruct e as [ty text|]; simpl; [|discriminate].
  destruct (interesting ty && truthy (strip text)) eqn:H; [|discriminate].
  intros [= <-]. apply andb_true_iff in H as [_ H].
  split; [apply truthy_true, H | apply trimmedb_strip].
Qed.

(** [get_text(strip=True)] has no whitespace at either end. *)
Lemma get_text_strip_trimmed (e : page_element) : trimmed (get_text_strip e).
Proof.
  apply trimmedb_trimmed. unfold get_text_strip. apply trimmedb_join.
  apply Forall_forall. intros p [d [_ Hd]]%list_elem_of_omap.
  exact (stripped_string_ok _ _ Hd).
Qed.

Lemma definition_parts_trimmed (term_tag : element) :
  Forall (fun p => trimmedb p = true) (definition_parts term_tag).
Proof.
  unfold definition_parts.
  induction (List.filter is_navigable_string (next_siblings term_tag)) as [|x l IH];
    simpl; constructor; [apply trimmedb_strip | exact IH].
Qed.

Lemma filter_truthy_ok (parts : list str) :
  Forall (fun p => trimmedb p = true) parts ->
  Forall (fun p => p <> [] /\ trimmedb p = true) (List.filter truthy parts).
Proof.
  induction 1 as [|p parts Hp _ IH]; simpl; [constructor|].
  destruct (truthy p) eqn:Ht; [|exact IH].
  constructor; [split; [apply truthy_true, Ht | exact Hp] | exact IH].
Qed.




Lemma Forall_concat_map {A : Type} (P : row -> Prop) (f : A -> list row) (l : list A) :
  (forall x, Forall P (f x)) -> Forall P (concat (List.map f l)).
Proof.
  intros H. induction l as [|x l IH]; simpl; [constructor|].
  apply Forall_app. split; [apply H | exact IH].
Qed.

Lemma forallb_non_period (d : str) :
  forallb non_period d = true -> ~ In PdfScraper.period d.
Proof.
  induction d as [|c d IH]; simpl; [tauto|].
  intros [Hc Hd]%andb_true_iff [->|Hin]; [discriminate Hc | exact (IH Hd Hin)].
Qed.

End Bs4Facts.

(** ** The rows of each run *)

Section Entries.
Import Output Spec.

Lemma entries_owasp_scrape (w : world) :
  entries (OwaspScrape.owasp_scrape w) OwaspScrape.csvfile =
    match network w OwaspScrape.url with
    | Failed => []
    | Responded r =>
        (for_output (find_all_class (content r) (py "div") (py "section"))
           section_output).1
    end.
Proof.
  unfold entries. rewrite owasp_scrape_run.
  destruct (network w OwaspScrape.url) as [r|]; cbn [snd].
  - rewrite lookup_insert_eq. reflexivity.
  - rewrite lookup_empty. reflexivity.
Qed.

Lemma entries_pdf_scraper (w : world) :
  entries (PdfScraper.pdf_scraper w) PdfScraper.csvfile =
    match pdf_files w PdfScraper.pdf with
    | None => []
    | Some pages => concat (List.map page_rows pages)
    end.
Proof.
  unfold entries. rewrite pdf_scraper_run.
  destruct (pdf_files w PdfScraper.pdf) as [pages|]; cbn [snd].
  - rewrite lookup_insert_eq.
    rewrite (for_output_ok pages page_output page_rows)
      by (intros; apply page_output_rows).
    reflexivity.
  - rewrite lookup_empty. reflexivity.
Qed.

Lemma entries_scraper (w : world) :
  entries (Scraper.scraper w) Scraper.csvfile =
    (for_output Scraper.urls (url_output w)).1.
Proof.
  unfold entries. rewrite scraper_run. cbn [snd].
  rewrite lookup_insert_eq. reflexivity.
Qed.

End Entries.

(** * The claims *)

Section PatternStrategy.
Import Re Output Spec Examples.
Import PdfScraper.

(** C1, as stated, fails on its own example: the scan resumes right after
    the period that ends the first match, so the blank before [INTEGRITY]
    belongs to the run of uppercase letters and whitespace that makes the
    second term.  The second entry is [" INTEGRITY"], not ["INTEGRITY"]. *)
Lemma pattern_example_counterexample :
  entries (pdf_scraper (pdf_world [example_page])) csvfile =
    [ [py "CONFIDENTIALITY";
       py "the property of being accessible only to authorized parties"; pdf];
      [py " INTEGRITY"; py "the assurance of data accuracy"; pdf] ] /\
  entries (pdf_scraper (pdf_world [example_page])) csvfile <>
    [ [py "CONFIDENTIALITY";
       py "the property of being accessible only to authorized parties"; pdf];
      [py "INTEGRITY"; py "the assurance of data accuracy"; pdf] ].
Proof.
  split; [vm_compute; reflexivity|].
  vm_compute. intros H. discriminate H.
Qed.

(** C1 (amended): for every page text, the tuples [findall] yields are the
    non-overlapping matches of the pattern read from the left, each term a
    maximal run of uppercase letters and whitespace; the run writes, after
    the header, one row per match, page by page, each with the file name as
    source; on the example page the two rows are those of the
    specification except that the second term keeps its leading blank. *)
Theorem pattern_strategy_matches :
  (forall text : str, scan None text (findall pattern text)) /\
  (forall (w : world) (fs : gmap str (list row)),
     pdf_scraper w fs =
       match pdf_files w pdf with
       | None => (Raise PdfReadError, fs)
       | Some pages =>
           (Ok tt, <[csvfile := header :: concat (List.map page_rows pages)]> fs)
       end) /\
  page_rows example_page =
    [ [py "CONFIDENTIALITY";
       py "the property of being accessible only to authorized parties"; pdf];
      [py " INTEGRITY"; py "the assurance of data accuracy"; pdf] ].
Proof.
  split; [exact findall_scan|]. split; [|vm_compute; reflexivity].
  intros w fs. rewrite pdf_scraper_run.
  destruct (pdf_files w pdf) as [pages|]; [|reflexivity].
  rewrite (for_output_ok pages page_output page_rows)
    by (intros; apply page_output_rows).
  reflexivity.
Qed.

(** C10: every entry PatternStrategy emits has a non-empty term made of
    uppercase ASCII letters and whitespace only, and a non-empty
    definition without a period. *)
Theorem pattern_entry_shape (w : world) :
  Forall (fun r => exists t d : str,
            r = [t; d; pdf] /\
            t <> [] /\ forallb term_char t = true /\
            d <> [] /\ ~ In period d)
    (entries (pdf_scraper w) csvfile).
Proof.
  rewrite entries_pdf_scraper.
  destruct (pdf_files w pdf) as [pages|]; [|constructor].
  apply Forall_concat_map. intros text.
  eapply Forall_impl; [apply page_rows_shape|].
  intros r (t & d & -> & Ht & Htall & Hd & Hdall).
  exists t, d. split; [reflexivity|]. auto using forallb_non_period.
Qed.

End PatternStrategy.

Section GlossaryEntries.
Import Output Spec Examples.

(** C4, as stated, fails for each strategy: PatternStrategy writes the
    groups as matched, blanks included; SectionStrategy and TableStrategy
    write the text of a heading, paragraph or [strong] element even when
    it is empty. *)
Lemma glossary_entry_counterexample :
  (entries (PdfScraper.pdf_scraper (pdf_world [py " A: b ."])) PdfScraper.csvfile =
     [[py " A"; py "b "; PdfScraper.pdf]] /\
   ~ glossary_entry [py " A"; py "b "; PdfScraper.pdf]) /\
  (entries (OwaspScrape.owasp_scrape
      (web_world 200 (document [section [tag "h1" []; tag "p" [text "  "]]])))
     OwaspScrape.csvfile = [[ []; [] ]] /\
   ~ glossary_entry [ []; [] ]) /\
  (entries (Scraper.scraper
      (web_world 200 (document
         [tag "table" [tag "tbody" [tag "tr" [tag "td"
            [tag "p" [tag "strong" []; text "a firewall"]]]]]])))
     Scraper.csvfile =
     [[ []; py "a firewall";
        py "https://www.sans.org/security-resources/glossary-of-terms/" ]] /\
   ~ glossary_entry
       [ []; py "a firewall";
         py "https://www.sans.org/security-resources/glossary-of-terms/" ]).
Proof.
  repeat split; try (vm_compute; reflexivity).
  - intros (_ & H & _). vm_compute in H. discriminate H.
  - intros (H & _). apply H. reflexivity.
  - intros (H & _). apply H. reflexivity.
Qed.

(** C4 (amended): an entry of SectionStrategy has a term and a definition
    without whitespace at either end, each possibly empty; an entry of
    PatternStrategy has a non-empty term and a non-empty definition, not
    necessarily trimmed; an entry of TableStrategy has a term without
    whitespace at either end, possibly empty, and a non-empty definition
    without whitespace at either end. *)
Theorem emitted_entries_shape (w : world) :
  Forall (fun r => exists t d : str, r = [t; d] /\ trimmed t /\ trimmed d)
    (entries (OwaspScrape.owasp_scrape w) OwaspScrape.csvfile) /\
  Forall (fun r => exists t d : str,
            r = [t; d; PdfScraper.pdf] /\ t <> [] /\ d <> [])
    (entries (PdfScraper.pdf_scraper w) PdfScraper.csvfile) /\
  Forall (fun r => exists t d url : str,
            r = [t; d; url] /\ trimmed t /\ d <> [] /\ trimmed d)
    (entries (Scraper.scraper w) Scraper.csvfile).
Proof.
  split; [|split].
  - rewrite entries_owasp_scrape.
    destruct (network w OwaspScrape.url) as [r|]; [|constructor].
    apply for_output_Forall. intros sec _. unfold section_output.
    destruct (find (node sec) (py "h1")) as [h1|]; [|constructor].
    destruct (find (node sec) (py "p")) as [p|]; [|constructor].
    repeat constructor. eexists _, _. split; [reflexivity|].
    split; apply get_text_strip_trimmed.
  - rewrite entries_pdf_scraper.
    destruct (pdf_files w PdfScraper.pdf) as [pages|]; [|constructor].
    apply Forall_concat_map. intros text.
    eapply Forall_impl; [apply page_rows_shape|].
    intros r (t & d & -> & Ht & _ & Hd & _). exists t, d. auto.
  - rewrite entries_scraper.
    apply for_output_Forall. intros url _. unfold url_output.
    destruct (network w url) as [r|]; [|constructor].
    apply for_output_Forall. intros table _. unfold table_output.
    destruct (find (node table) (py "tbody")) as [tbody|]; [|constructor].
    unfold tbody_rows.
    apply Forall_concat_map. intros row.
    apply Forall_concat_map. intros cell.
    apply Forall_concat_map. intros paragraph. unfold paragraph_rows.
    destruct (find (node paragraph) (py "strong")) as [term_tag|]; [|constructor].
    cbv zeta.
    destruct (truthy (join (py " ") (List.filter truthy (definition_parts term_tag))))
      eqn:Hdef; [|constructor].
    repeat constructor. eexists _, _, _. split; [reflexivity|].
    split; [apply get_text_strip_trimmed|].
    split; [apply truthy_true, Hdef|].
    apply trimmedb_trimmed, trimmedb_join, filter_truthy_ok, definition_parts_trimmed.
Qed.

End GlossaryEntries.

Section SectionStrategy.
Import Output Spec Examples.
Import OwaspScrape.

Lemma complete_section_output (sec : element) :
  complete_section sec ->
  exists r, section_output sec = ([r], Ok tt) /\ section_entry sec r.
Proof.
  intros [[h1 Hh1] [p Hp]]. unfold section_output, section_entry.
  rewrite Hh1, Hp. eexists. split; [reflexivity|].
  exists h1, p. auto.
Qed.

Lemma complete_sections_rows (secs : list element) :
  Forall complete_section secs ->
  (forall sec, In sec secs -> section_output sec = ((section_output sec).1, Ok tt)) /\
  Forall2 section_entry secs
    (concat (List.map (fun sec => (section_output sec).1) secs)).
Proof.
  induction 1 as [|sec secs Hsec _ [IH1 IH2]]; [split; [intros ? [] | constructor]|].
  destruct (complete_section_output sec Hsec) as (r & Hr & Hentry).
  split.
  - intros s [<-|Hs]; [rewrite Hr; reflexivity | apply IH1, Hs].
  - simpl. rewrite Hr. simpl. constructor; assumption.
Qed.

Lemma incomplete_section_output (sec : element) :
  find (node sec) (py "h1") = None \/ find (node sec) (py "p") = None ->
  section_output sec = ([], Raise AttributeError).
Proof.
  unfold section_output. intros [H|H]; rewrite H; [reflexivity|].
  destruct (find (node sec) (py "h1")); reflexivity.
Qed.

(** C5, as stated, fails: "a heading element" may be of any level, but the
    script looks for an [h1] only.  A page whose one section is headed by
    an [h2] and has a paragraph meets the claim's condition with N = 1; the
    run aborts at that section and writes no entry. *)
Lemma heading_element_counterexample :
  forallb has_heading_and_paragraph
    (find_all_class h2_page (py "div") (py "section")) = true /\
  length (find_all_class h2_page (py "div") (py "section")) = 1 /\
  owasp_scrape (web_world 200 h2_page) ∅ =
    (Raise AttributeError, {[ csvfile := [header] ]}) /\
  entries (owasp_scrape (web_world 200 h2_page)) csvfile = [].
Proof. repeat split; vm_compute; reflexivity. Qed.

(** C5 (amended): when the fetch succeeds and each of the N sections of the
    page has an [h1] and a [p], the run ends normally and has written,
    after the header, exactly N rows: for each section, in document order,
    the text of its first [h1] and of its first [p]. *)
Theorem section_strategy_complete (w : world) (r : Response)
    (fs : gmap str (list row)) :
  network w url = Responded r ->
  Forall complete_section (find_all_class (content r) (py "div") (py "section")) ->
  exists rows : list row,
    owasp_scrape w fs = (Ok tt, <[csvfile := header :: rows]> fs) /\
    length rows = length (find_all_class (content r) (py "div") (py "section")) /\
    Forall2 section_entry (find_all_class (content r) (py "div") (py "section")) rows.
Proof.
  intros Hnet Hall. destruct (complete_sections_rows _ Hall) as [Hok Hrows].
  eexists. rewrite owasp_scrape_run, Hnet. cbv zeta.
  rewrite (for_output_ok _ _ _ Hok).
  split; [reflexivity|]. split; [|exact Hrows].
  symmetry. exact (Forall2_length _ _ _ Hrows).
Qed.

Lemma section_strategy_complete_witness :
  exists rows : list row,
    owasp_scrape (web_world 200 glossary_page) ∅ =
      (Ok tt, <[csvfile := header :: rows]> ∅) /\
    length rows =
      length (find_all_class glossary_page (py "div") (py "section")) /\
    Forall2 section_entry
      (find_all_class glossary_page (py "div") (py "section")) rows.
Proof.
  apply (section_strategy_complete (web_world 200 glossary_page)
           {| status_code := 200; content := glossary_page |} ∅).
  - reflexivity.
  - repeat constructor; eexists; vm_compute; reflexivity.
Defined.

(** C2, as stated, fails: the section without a heading stops the run with
    an [AttributeError]; the complete section after it, which
    skip-and-continue would have written, is never reached. *)
Lemma skip_and_continue_counterexample :
  owasp_scrape (web_world 200 broken_glossary_page) ∅ =
    (Raise AttributeError,
     {[ csvfile := [header; [py "XSS"; py "Cross-site scripting."]] ]}) /\
  skip_and_continue
    (find_all_class broken_glossary_page (py "div") (py "section")) =
    [ [py "XSS"; py "Cross-site scripting."];
      [py "CSRF"; py "Cross-site request forgery."] ] /\
  owasp_scrape (web_world 200 broken_glossary_page) ∅ <>
    (Ok tt,
     {[ csvfile := header :: skip_and_continue
          (find_all_class broken_glossary_page (py "div") (py "section")) ]}).
Proof.
  assert (H : owasp_scrape (web_world 200 broken_glossary_page) ∅ =
    (Raise AttributeError,
     {[ csvfile := [header; [py "XSS"; py "Cross-site scripting."]] ]}))
    by (vm_compute; reflexivity).
  split; [exact H|]. split; [vm_compute; reflexivity|].
  rewrite H. discriminate.
Qed.

(** C2 (amended): when a section is missing its [h1] or its [p], the run
    aborts at that section with the error of an attribute access on
    [None]; the rows of the sections before it, and the header, have been
    written; no later section is processed. *)
Theorem section_strategy_aborts (w : world) (r : Response)
    (fs : gmap str (list row)) (good rest : list element) (bad : element) :
  network w url = Responded r ->
  find_all_class (content r) (py "div") (py "section") = good ++ bad :: rest ->
  Forall complete_section good ->
  find (node bad) (py "h1") = None \/ find (node bad) (py "p") = None ->
  exists rows : list row,
    owasp_scrape w fs = (Raise AttributeError, <[csvfile := header :: rows]> fs) /\
    Forall2 section_entry good rows.
Proof.
  intros Hnet Hsecs Hgood Hbad.
  destruct (complete_sections_rows _ Hgood) as [Hok Hrows].
  eexists. rewrite owasp_scrape_run, Hnet, Hsecs. cbv zeta.
  rewrite (for_output_raise _ _ _ _ _ [] AttributeError Hok
             (incomplete_section_output _ Hbad)).
  split; [reflexivity|]. rewrite app_nil_r. exact Hrows.
Qed.

Lemma section_strategy_aborts_witness :
  exists rows : list row,
    owasp_scrape (web_world 200 broken_glossary_page) ∅ =
      (Raise AttributeError, <[csvfile := header :: rows]> ∅) /\
    Forall2 section_entry [Element section_xss [section_untitled; section_csrf]] rows.
Proof.
  apply (section_strategy_aborts (web_world 200 broken_glossary_page)
           {| status_code := 200; content := broken_glossary_page |} ∅
           [Element section_xss [section_untitled; section_csrf]]
           [Element section_csrf []]
           (Element section_untitled [section_csrf])).
  - reflexivity.
  - vm_compute. reflexivity.
  - repeat constructor; eexists; vm_compute; reflexivity.
  - left. vm_compute. reflexivity.
Defined.

End SectionStrategy.

Section TableStrategy.
Import Output Spec Examples.
Import Scraper.



Lemma descendants_child (name : str) (cls : list str)
    (contents : list page_element) (c : page_element) :
  In c contents ->
  exists sibs, In (Element c sibs) (descendants (Tag name cls contents)).
Proof.
  simpl. induction contents as [|x l IH]; intros Hin; [destruct Hin|].
  destruct Hin as [<-|Hin].
  - exists l. left. reflexivity.
  - destruct (IH Hin) as [sibs Hs]. exists sibs.
    right. apply in_or_app. right. exact Hs.
Qed.

Lemma find_is_Some (e : page_element) (name : str) (d : element) :
  In d (descendants e) -> is_tag name (node d) = true -> is_Some (find e name).
Proof.
  intros Hin Htag. unfold find, find_all.
  assert (H : In d (List.filter (fun d => is_tag name (node d)) (descendants e)))
    by (apply filter_In; auto).
  destruct (List.filter _ _) as [|x l]; [destruct H | exists x; reflexivity].
Qed.

(** A [tbody] child is a [tbody] below the table. *)
Lemma has_tbody_child_has_tbody (table : element) :
  has_tbody_child (node table) = true -> has_tbody table.
Proof.
  unfold has_tbody. destruct (node table) as [|name cls contents]; [discriminate|].
  intros (c & Hin & Htag)%existsb_exists.
  destruct (descendants_child name cls contents c Hin) as [sibs Hs].
  exact (find_is_Some _ _ _ Hs Htag).
Qed.

(** The loop over the tables ends normally when every table has a [tbody]
    and raises at the first that has none. *)
Lemma tables_output (url : str) (tables : list element) :
  (Forall has_tbody tables /\
   exists rows, for_output tables (table_output url) = (rows, Ok tt)) \/
  (Exists (fun table => find (node table) (py "tbody") = None) tables /\
   exists rows, for_output tables (table_output url) = (rows, Raise AttributeError)).
Proof.
  induction tables as [|t l IH]; [left; split; [constructor | eexists; reflexivity]|].
  simpl. unfold table_output at 1 3.
  destruct (find (node t) (py "tbody")) as [tbody|] eqn:Ht.
  - destruct IH as [[Hall [rows Hrows]]|[Hex [rows Hrows]]]; rewrite Hrows.
    + left. split; [constructor; [exists tbody; exact Ht | exact Hall]|].
      eexists. reflexivity.
    + right. split; [apply Exists_cons_tl, Hex | eexists; reflexivity].
  - right. split; [apply Exists_cons_hd, Ht | eexists; reflexivity].
Qed.

Lemma urls_output (w : world) (r : Response) :
  (forall u, In u urls -> network w u = Responded r) ->
  for_output urls (url_output w) =
    let out := for_output (find_all (content r) (py "table")) (table_output sans_url) in
    match out.2 with
    | Ok _ => (out.1 ++ [], Ok tt)
    | Raise e => (out.1, Raise e)
    end.
Proof.
  intros Hnet. change urls with [sans_url] in *.
  cbn [for_output]. unfold url_output.
  rewrite (Hnet sans_url) by (left; reflexivity). cbv zeta.
  destruct (for_output _ _) as [rows [[]|e]]; reflexivity.
Qed.

(** C9, as stated, fails: [table.tbody] searches the whole subtree, so a
    table without a [tbody] child is served by the [tbody] of a table
    nested in it, and the run ends normally (the nested rows are written
    once for each of the two tables). *)
Lemma tbody_child_counterexample :
  has_tbody_child outer_table = false /\
  scraper (web_world 200 nested_page) ∅ =
    (Ok tt, {[ csvfile := [ header;
                            [py "Worm"; py "malware"; sans_url];
                            [py "Worm"; py "malware"; sans_url] ] ]}).
Proof. split; vm_compute; reflexivity. Qed.

(** C9 (amended): with the page fetched, the run ends normally exactly
    when every table element has a [tbody] somewhere below it, and aborts
    with the error of an attribute access on [None] when some table has
    none, the header and the rows of the tables before the first such
    table already written; in particular it ends normally when every table
    has a [tbody] child. *)
Theorem table_strategy_total (w : world) (r : Response) (fs : gmap str (list row)) :
  (forall u, In u urls -> network w u = Responded r) ->
  ((Forall has_tbody (find_all (content r) (py "table")) /\
    exists rows, scraper w fs = (Ok tt, <[csvfile := header :: rows]> fs)) \/
   (Exists (fun table => find (node table) (py "tbody") = None)
      (find_all (content r) (py "table")) /\
    exists rows, scraper w fs = (Raise AttributeError, <[csvfile := header :: rows]> fs))) /\
  (Forall (fun table => has_tbody_child (node table) = true)
     (find_all (content r) (py "table")) ->
   exists rows, scraper w fs = (Ok tt, <[csvfile := header :: rows]> fs)).
Proof.
  intros Hnet.
  assert (Hrun : forall rows res,
    for_output (find_all (content r) (py "table")) (table_output sans_url) = (rows, res) ->
    exists rows', scraper w fs = (res, <[csvfile := header :: rows']> fs)).
  { intros rows res Hout. rewrite scraper_run, (urls_output w r Hnet), Hout.
    destruct res as [[]|e]; eexists; reflexivity. }
  assert (Hcases := tables_output sans_url (find_all (content r) (py "table"))).
  split.
  - destruct Hcases as [[Hall [rows Hrows]]|[Hex [rows Hrows]]].
    + left. split; [exact Hall | exact (Hrun _ _ Hrows)].
    + right. split; [exact Hex | exact (Hrun _ _ Hrows)].
  - intros Hchild.
    destruct Hcases as [[_ [rows Hrows]]|[Hex _]]; [exact (Hrun _ _ Hrows)|].
    exfalso. apply Exists_exists in Hex as (t & Hin & Hnone).
    rewrite Forall_forall in Hchild.
    destruct (has_tbody_child_has_tbody t (Hchild t Hin)) as [tb Htb].
    congruence.
Qed.

Lemma table_strategy_total_witness :
  ((Forall has_tbody (find_all bare_page (py "table")) /\
    exists rows, scraper (web_world 200 bare_page) ∅ =
                   (Ok tt, <[csvfile := header :: rows]> ∅)) \/
   (Exists (fun table => find (node table) (py "tbody") = None)
      (find_all bare_page (py "table")) /\
    exists rows, scraper (web_world 200 bare_page) ∅ =
                   (Raise AttributeError, <[csvfile := header :: rows]> ∅))) /\
  (Forall (fun table => has_tbody_child (node table) = true)
     (find_all bare_page (py "table")) ->
   exists rows, scraper (web_world 200 bare_page) ∅ =
                  (Ok tt, <[csvfile := header :: rows]> ∅)).
Proof.
  apply (table_strategy_total (web_world 200 bare_page)
           {| status_code := 200; content := bare_page |} ∅).
  intros u _. reflexivity.
Defined.

End TableStrategy.

Section Fetch.
Import Output Spec Examples.

Lemma for_output_ext {A : Type} (l : list A) (f g : A -> output) :
  (forall x, f x = g x) -> for_output l f = for_output l g.
Proof.
  intros H. induction l as [|x l IH]; simpl; [reflexivity|].
  rewrite H, IH. reflexivity.
Qed.

(** C6, as stated, fails: a 404 or a 503 answer is parsed and extracted
    like any other; both runs end normally with the rows of the body. *)
Lemma non_success_status_counterexample :
  OwaspScrape.owasp_scrape (web_world 404 glossary_page) ∅ =
    (Ok tt, {[ OwaspScrape.csvfile :=
                 [ OwaspScrape.header;
                   [py "XSS"; py "Cross-site scripting."];
                   [py "CSRF"; py "Cross-site request forgery."] ] ]}) /\
  Scraper.scraper (web_world 503 (table_page worm_paragraph)) ∅ =
    (Ok tt, {[ Scraper.csvfile :=
                 [ Scraper.header;
                   [py "Worm"; py "self-replicating malware"; sans_url] ] ]}).
Proof. split; vm_compute; reflexivity. Qed.

(** C6 (amended): the status of the response is never inspected.  Two
    networks whose answers differ at most in their status codes give the
    same run of owasp_scrape.py and of scraper.py: a non-2xx response is
    extracted exactly like a 2xx response with the same body, and only a
    transport failure stops the run at the fetch. *)
Theorem status_ignored (w w' : world) (fs : gmap str (list row)) :
  (forall u, same_body (network w u) (network w' u)) ->
  OwaspScrape.owasp_scrape w fs = OwaspScrape.owasp_scrape w' fs /\
  Scraper.scraper w fs = Scraper.scraper w' fs.
Proof.
  intros Hsame. split.
  - rewrite !owasp_scrape_run. specialize (Hsame OwaspScrape.url).
    destruct (network w OwaspScrape.url) as [r|], (network w' OwaspScrape.url) as [r'|];
      simpl in Hsame; try contradiction; [|reflexivity].
    rewrite Hsame. reflexivity.
  - rewrite !scraper_run.
    rewrite (for_output_ext _ (url_output w) (url_output w')); [reflexivity|].
    intros u. unfold url_output. specialize (Hsame u).
    destruct (network w u) as [r|], (network w' u) as [r'|];
      simpl in Hsame; try contradiction; [|reflexivity].
    rewrite Hsame. reflexivity.
Qed.

Lemma status_ignored_witness :
  OwaspScrape.owasp_scrape (web_world 200 glossary_page) ∅ =
    OwaspScrape.owasp_scrape (web_world 404 glossary_page) ∅ /\
  Scraper.scraper (web_world 200 glossary_page) ∅ =
    Scraper.scraper (web_world 404 glossary_page) ∅.
Proof.
  apply (status_ignored (web_world 200 glossary_page) (web_world 404 glossary_page) ∅).
  intros u. reflexivity.
Defined.

(** C7, as stated, fails for scraper.py: the file is opened and the header
    written before the first fetch, so a transport failure leaves a file
    that holds the header row. *)
Lemma transport_failure_counterexample :
  Scraper.scraper offline_world ∅ =
    (Raise ConnectionError, {[ Scraper.csvfile := [Scraper.header] ]}) /\
  (Scraper.scraper offline_world ∅).2 !! Scraper.csvfile <> None.
Proof. split; [vm_compute; reflexivity | vm_compute; discriminate]. Qed.

(** C7 (amended): when the fetch fails with a transport error,
    owasp_scrape.py stops before it opens its output file, which is left
    as it was; scraper.py stops with its output file holding the header
    row and no data row. *)
Theorem transport_failure_output (w : world) (fs : gmap str (list row)) :
  (network w OwaspScrape.url = Failed ->
   OwaspScrape.owasp_scrape w fs = (Raise ConnectionError, fs)) /\
  ((forall u, In u Scraper.urls -> network w u = Failed) ->
   Scraper.scraper w fs =
     (Raise ConnectionError, <[Scraper.csvfile := [Scraper.header]]> fs)).
Proof.
  split.
  - intros Hnet. rewrite owasp_scrape_run, Hnet. reflexivity.
  - intros Hnet. rewrite scraper_run.
    change Scraper.urls with [sans_url] in *. cbn [for_output]. unfold url_output.
    rewrite (Hnet sans_url) by (left; reflexivity). reflexivity.
Qed.

Lemma transport_failure_output_witness :
  OwaspScrape.owasp_scrape offline_world ∅ = (Raise ConnectionError, ∅) /\
  Scraper.scraper offline_world ∅ =
    (Raise ConnectionError, <[Scraper.csvfile := [Scraper.header]]> ∅).
Proof.
  destruct (transport_failure_output offline_world ∅) as [Howasp Hscraper].
  split; [apply Howasp; reflexivity | apply Hscraper; intros u _; reflexivity].
Defined.

End Fetch.

Section Idempotence.
Import Output Spec.

Lemma deterministic_twice (run : script unit) (path : str) (fs : gmap str (list row)) :
  deterministic run path -> run (run fs).2 = run fs.
Proof.
  intros [res [H|[rows H]]].
  - rewrite !H. reflexivity.
  - rewrite !H. cbn [snd]. rewrite insert_insert_eq. reflexivity.
Qed.

Lemma owasp_scrape_deterministic (w : world) :
  deterministic (OwaspScrape.owasp_scrape w) OwaspScrape.csvfile.
Proof.
  destruct (network w OwaspScrape.url) as [r|] eqn:Hnet.
  - eexists. right. eexists. intros fs. rewrite owasp_scrape_run, Hnet. reflexivity.
  - eexists. left. intros fs. rewrite owasp_scrape_run, Hnet. reflexivity.
Qed.

Lemma pdf_scraper_deterministic (w : world) :
  deterministic (PdfScraper.pdf_scraper w) PdfScraper.csvfile.
Proof.
  destruct (pdf_files w PdfScraper.pdf) as [pages|] eqn:Hpdf.
  - eexists. right. eexists. intros fs. rewrite pdf_scraper_run, Hpdf. reflexivity.
  - eexists. left. intros fs. rewrite pdf_scraper_run, Hpdf. reflexivity.
Qed.

Lemma scraper_deterministic (w : world) :
  deterministic (Scraper.scraper w) Scraper.csvfile.
Proof.
  eexists. right. eexists. intros fs. rewrite scraper_run. reflexivity.
Qed.

(** C8: each extraction is deterministic.  For every input, how the run
    ends and the rows of its output file, in order, are fixed by the input
    alone; run a second time over the same input, each script ends the
    same way and leaves the files exactly as the first run left them. *)
Theorem extraction_deterministic (w : world) (fs : gmap str (list row)) :
  (deterministic (OwaspScrape.owasp_scrape w) OwaspScrape.csvfile /\
   deterministic (PdfScraper.pdf_scraper w) PdfScraper.csvfile /\
   deterministic (Scraper.scraper w) Scraper.csvfile) /\
  OwaspScrape.owasp_scrape w (OwaspScrape.owasp_scrape w fs).2 =
    OwaspScrape.owasp_scrape w fs /\
  PdfScraper.pdf_scraper w (PdfScraper.pdf_scraper w fs).2 =
    PdfScraper.pdf_scraper w fs /\
  Scraper.scraper w (Scraper.scraper w fs).2 = Scraper.scraper w fs.
Proof.
  pose proof (owasp_scrape_deterministic w) as Ho.
  pose proof (pdf_scraper_deterministic w) as Hp.
  pose proof (scraper_deterministic w) as Hs.
  split; [auto|].
  split; [|split]; eapply deterministic_twice; eassumption.
Qed.

End Idempotence.

(** * Further properties of the scripts *)

(** ** pdf_scraper.py: what the pattern can and cannot find *)

Section PatternLimits.
Import Re Output Spec PageText Examples.
Import PdfScraper.

(** A property of every tuple the scan yields follows from the same
    property of every successful match. *)
Lemma findall_from_Forall (P : list str -> Prop) :
  (forall s parts rest,
     match_here pattern s = Some (parts, rest) -> P (groups pattern parts)) ->
  forall n s, Forall P (findall_from n pattern s).
Proof.
  intros HP. induction n as [|n IH]; intros s; cbn [findall_from]; [constructor|].
  destruct (match_here pattern s) as [[parts rest]|] eqn:Hm.
  - constructor; [exact (HP _ _ _ Hm) | apply IH].
  - destruct s as [|c s]; [constructor | apply IH].
Qed.

(** Where no suffix of the text starts with a match, the scan finds
    nothing. *)
Lemma findall_from_no_match (n : nat) (s : str) :
  (forall u v, s = u ++ v -> forall t d rest, ~ is_match v t d rest) ->
  findall_from n pattern s = [].
Proof.
  revert s. induction n as [|n IH]; intros s Hno; cbn [findall_from]; [reflexivity|].
  destruct (match_here pattern s) as [[parts rest]|] eqn:Hm.
  - destruct (match_here_is_match _ _ _ Hm) as (t & d & _ & His).
    exfalso. exact (Hno [] s eq_refl _ _ _ His).
  - destruct s as [|c s]; [reflexivity|].
    apply IH. intros u v -> t d rest. exact (Hno (c :: u) v eq_refl t d rest).
Qed.

Lemma is_match_min_length (s t d rest : str) :
  is_match s t d rest -> length rest + 5 <= length s.
Proof.
  intros (ws & -> & Ht & _ & Hws & _ & Hd & _).
  rewrite !length_app. cbn [length]. rewrite !length_app. cbn [length].
  destruct t; [congruence|]. destruct ws; [congruence|]. destruct d; [congruence|].
  cbn [length]. lia.
Qed.

Lemma findall_from_bound (n : nat) (s : str) :
  5 * length (findall_from n pattern s) <= length s.
Proof.
  revert s. induction n as [|n IH]; intros s; cbn [findall_from]; [simpl; lia|].
  destruct (match_here pattern s) as [[parts rest]|] eqn:Hm.
  - destruct (match_here_is_match _ _ _ Hm) as (t & d & _ & His).
    apply is_match_min_length in His. specialize (IH rest). cbn [length]. lia.
  - destruct s as [|c s]; [simpl; lia|]. specialize (IH s). cbn [length]. lia.
Qed.

Lemma length_concat_map_le {A : Type} (f : A -> list row) (g : A -> nat) (l : list A) :
  (forall x, 5 * length (f x) <= g x) ->
  5 * length (concat (List.map f l)) <= list_sum (List.map g l).
Proof.
  intros H. induction l as [|x l IH]; simpl; [lia|].
  rewrite length_app. specialize (H x). lia.
Qed.

(** X1: every match takes at least five characters of its page and
    matches do not overlap.  The data rows of a run are those of its pages,
    page by page; a page gives at most one row per five characters of its
    text, and a page shorter than five characters gives none; so the run
    writes at most one data row per five characters of page text. *)
Theorem pattern_rows_bound (w : world) :
  (forall text : str, 5 * length (page_rows text) <= length text) /\
  (forall text : str, length text < 5 -> page_rows text = []) /\
  entries (pdf_scraper w) csvfile =
    match pdf_files w pdf with
    | Some pages => concat (List.map page_rows pages)
    | None => []
    end /\
  5 * length (entries (pdf_scraper w) csvfile) <=
    match pdf_files w pdf with
    | Some pages => list_sum (List.map (fun text : str => length text) pages)
    | None => 0
    end.
Proof.
  assert (Hpage : forall text : str, 5 * length (page_rows text) <= length text).
  { intros text. unfold page_rows. rewrite length_map. apply findall_from_bound. }
  split; [exact Hpage|]. split; [|split].
  - intros text Hshort. specialize (Hpage text).
    destruct (page_rows text) as [|r rows]; [reflexivity|]. cbn [length] in Hpage. lia.
  - apply entries_pdf_scraper.
  - rewrite entries_pdf_scraper.
    destruct (pdf_files w pdf) as [pages|]; [|simpl; lia].
    apply length_concat_map_le. exact Hpage.
Qed.

Lemma term_before_colon_suffix (u v : str) :
  term_before_colon (u ++ v) = false -> term_before_colon v = false.
Proof.
  induction u as [|c u IH]; [auto|].
  intros H. apply IH. simpl in H.
  destruct (u ++ v) as [|c' x] eqn:E; [reflexivity|].
  apply orb_false_iff in H as [_ H]. exact H.
Qed.

Lemma term_before_colon_term (t x : str) :
  t <> [] -> forallb term_char t = true ->
  term_before_colon (t ++ colon :: x) = true.
Proof.
  induction t as [|c t IH]; intros Hne Hall; [congruence|].
  simpl in Hall. apply andb_true_iff in Hall as [Hc Hall].
  destruct t as [|c' t].
  - simpl. rewrite Hc. reflexivity.
  - assert (Hrec : term_before_colon ((c' :: t) ++ colon :: x) = true)
      by (apply IH; [congruence | exact Hall]).
    cbn [app] in Hrec |- *.
    change (term_before_colon (c :: c' :: t ++ colon :: x))
      with (term_char c && (c' =? colon)%N
            || term_before_colon (c' :: t ++ colon :: x)).
    rewrite Hrec. apply orb_true_r.
Qed.

(** X3: a page in which no colon stands directly after an uppercase
    letter or whitespace gives no data row: a term written in mixed case,
    as in "Firewall: ...", is never extracted. *)
Theorem no_term_before_colon_no_rows (text : str) :
  term_before_colon text = false -> page_rows text = [].
Proof.
  intros Hno. unfold page_rows, findall.
  rewrite findall_from_no_match; [reflexivity|].
  intros u v -> t d rest (ws & Hv & Ht & Htall & _).
  apply term_before_colon_suffix in Hno. rewrite Hv in Hno.
  rewrite term_before_colon_term in Hno by assumption. discriminate.
Qed.

Lemma no_term_before_colon_no_rows_witness : page_rows mixed_case_page = [].
Proof.
  apply (no_term_before_colon_no_rows mixed_case_page). vm_compute. reflexivity.
Defined.

Lemma forallb_non_period_period (a b : str) :
  forallb non_period (a ++ period :: b) = false.
Proof.
  rewrite forallb_app. cbn [forallb].
  change (non_period period) with false. apply andb_false_r.
Qed.

(** X4: a page without a period gives no data row: a definition that is
    not closed by a period, such as the last one of a page cut
    mid-sentence, is dropped. *)
Theorem no_period_no_rows (text : str) :
  forallb non_period text = true -> page_rows text = [].
Proof.
  intros Hno. unfold page_rows, findall.
  rewrite findall_from_no_match; [reflexivity|].
  intros u v -> t d rest (ws & Hv & _).
  rewrite forallb_app in Hno. apply andb_true_iff in Hno as [_ Hno].
  replace v with ((t ++ colon :: ws ++ d) ++ period :: rest) in Hno
    by (rewrite Hv, <- !app_assoc; cbn [app]; rewrite <- !app_assoc; reflexivity).
  rewrite forallb_non_period_period in Hno. discriminate.
Qed.

Lemma no_period_no_rows_witness : page_rows unterminated_page = [].
Proof.
  apply (no_period_no_rows unterminated_page). vm_compute. reflexivity.
Defined.

End PatternLimits.

(** ** pdf_scraper.py: the greedy whitespace before a definition *)

Section PatternGreedy.
Import Re Output Spec.
Import PdfScraper.

(** The greedy search returns the result of the longest repetition that
    lets the rest of the pattern match. *)
Lemma greedy_first {A : Type} (n : nat) (k : nat -> option A) (r : A) :
  greedy n k = Some r ->
  exists m, 1 <= m <= n /\ k m = Some r /\
            forall m', m < m' <= n -> k m' = None.
Proof.
  induction n as [|n IH]; simpl; [discriminate|].
  destruct (k (S n)) eqn:Hk.
  - intros [= <-]. exists (S n). split; [lia|]. split; [exact Hk | intros; lia].
  - intros H. destruct (IH H) as (m & Hm & Hkm & Hmax). exists m.
    split; [lia|]. split; [exact Hkm|].
    intros m' Hm'. destruct (Nat.eq_dec m' (S n)) as [->|Hne]; [exact Hk|].
    apply Hmax. lia.
Qed.

Lemma match_here_repeat_inv (b : bool) (a : atom) (re : regex) (s : str)
    (parts : list str) (rest : str) :
  match_here ((b, MaxRepeat1 a) :: re) s = Some (parts, rest) ->
  exists m parts',
    1 <= m <= span (accepts a) s /\
    parts = firstn m s :: parts' /\
    match_here re (skipn m s) = Some (parts', rest) /\
    forall m', m < m' <= span (accepts a) s -> match_here re (skipn m' s) = None.
Proof.
  cbn [match_here]. intros H.
  apply greedy_first in H as (m & Hm & Hk & Hmax).
  destruct (match_here re (skipn m s)) as [[ps r]|] eqn:Hre; [|discriminate].
  injection Hk as <- <-. exists m, ps.
  split; [exact Hm|]. split; [reflexivity|]. split; [exact Hre|].
  intros m' Hm'. specialize (Hmax m' Hm'). cbv beta in Hmax.
  destruct (match_here re (skipn m' s)) as [[ps' r']|]; [discriminate | reflexivity].
Qed.

Lemma match_here_once_inv (b : bool) (a : atom) (re : regex) (s : str)
    (parts : list str) (rest : str) :
  match_here ((b, Once a) :: re) s = Some (parts, rest) ->
  exists c s' parts',
    s = c :: s' /\ accepts a c = true /\
    parts = [c] :: parts' /\ match_here re s' = Some (parts', rest).
Proof.
  cbn [match_here]. destruct s as [|c s]; [discriminate|].
  destruct (accepts a c) eqn:Hc; [|discriminate].
  destruct (match_here re s) as [[ps r]|] eqn:Hre; [|discriminate].
  intros [= <- <-]. exists c, s, ps. auto.
Qed.

Lemma skipn_S_tail (m : nat) (l tl : str) (c : char) :
  skipn m l = c :: tl -> skipn (S m) l = tl.
Proof.
  revert l. induction m as [|m IH]; intros l H.
  - change (l = c :: tl) in H. subst l. reflexivity.
  - destruct l as [|x l]; [discriminate|].
    change (skipn m l = c :: tl) in H. change (skipn (S m) l = tl).
    exact (IH l H).
Qed.

(** After the colon the pattern takes as much whitespace as it can: the
    definition it captures starts with a whitespace character only when
    that character is the whole definition. *)
Lemma match_here_definition_greedy (s : str) (parts : list str) (rest : str) :
  match_here pattern s = Some (parts, rest) ->
  exists t d : str,
    groups pattern parts = [t; d] /\
    forall c d', d = c :: d' -> isspace c = true -> d' = [].
Proof.
  unfold pattern. intros H.
  apply match_here_repeat_inv in H as (m1 & p1 & _ & -> & H & _).
  apply match_here_once_inv in H as (c2 & s2 & p2 & _ & _ & -> & H).
  apply match_here_repeat_inv in H as (m3 & p3 & Hm3 & -> & H & Hmax).
  apply match_here_repeat_inv in H as (m4 & p4 & Hm4 & -> & H & _).
  apply match_here_once_inv in H as (c5 & s5 & p5 & Hs5 & Hc5 & -> & H).
  injection H as <- <-.
  eexists _, _. split; [reflexivity|].
  intros c d' Hd Hc. destruct d' as [|c' d'']; [reflexivity|]. exfalso.
  destruct (span_firstn _ _ _ (proj2 Hm4)) as [Hall4 _].
  destruct (span_firstn _ _ _ (proj2 Hm3)) as [Hall3 Hlen3].
  assert (Hsplit : skipn m3 s2 = c :: (c' :: d'') ++ c5 :: s5).
  { rewrite <- (firstn_skipn m4 (skipn m3 s2)), Hd, Hs5. reflexivity. }
  assert (Hspan : S m3 <= span (accepts CategorySpace) s2).
  { rewrite <- (firstn_skipn m3 s2), Hsplit.
    change (firstn m3 s2 ++ c :: (c' :: d'') ++ c5 :: s5)
      with (firstn m3 s2 ++ [c] ++ (c' :: d'') ++ c5 :: s5).
    rewrite app_assoc.
    etransitivity; [|apply span_app].
    - rewrite length_app, Hlen3. simpl. lia.
    - rewrite forallb_app, Hall3. simpl. rewrite Hc. reflexivity. }
  specialize (Hmax (S m3) ltac:(lia)).
  rewrite (skipn_S_tail _ _ _ _ Hsplit) in Hmax.
  rewrite Hd in Hall4. cbn [forallb] in Hall4.
  apply andb_true_iff in Hall4 as [_ Hall4].
  refine (match_here_complete _ _ [c' :: d''; [c5]] s5 _ Hmax).
  apply matches_repeat; [discriminate | exact Hall4 |].
  apply matches_once; [exact Hc5 | apply matches_nil].
Qed.

(** X2: in every data row the definition starts with a whitespace
    character only when it consists of that single character: the
    whitespace after the colon is taken by the pattern, not by the
    definition. *)
Theorem definition_leading_whitespace (w : world) :
  Forall (fun r => exists t d : str,
            r = [t; d; pdf] /\
            forall c d', d = c :: d' -> isspace c = true -> d' = [])
    (entries (pdf_scraper w) csvfile).
Proof.
  rewrite entries_pdf_scraper.
  destruct (pdf_files w pdf) as [pages|]; [|constructor].
  apply Forall_concat_map. intros text. unfold page_rows, findall.
  pose proof (findall_from_Forall
                (fun m => exists t d : str,
                   m = [t; d] /\
                   forall c d', d = c :: d' -> isspace c = true -> d' = [])
                match_here_definition_greedy (S (length text)) text) as Hall.
  induction Hall as [|m l (t & d & -> & Hd) _ IH]; simpl; constructor; [|exact IH].
  exists t, d. split; [reflexivity | exact Hd].
Qed.

End PatternGreedy.

(** ** The output files of the three scripts *)

Section OutputFiles.
Import Output Spec Examples.

Lemma deterministic_frame (run : script unit) (path other : str)
    (fs : gmap str (list row)) :
  deterministic run path -> other <> path -> (run fs).2 !! other = fs !! other.
Proof.
  intros [res [H|[rows H]]] Hne; rewrite H; [reflexivity|].
  cbn [snd]. apply lookup_insert_ne. congruence.
Qed.

(** X5: a run changes no file other than the script's own output file,
    whether it ends normally or not. *)
Theorem other_files_untouched (w : world) (fs : gmap str (list row)) (path : str) :
  (path <> OwaspScrape.csvfile ->
   (OwaspScrape.owasp_scrape w fs).2 !! path = fs !! path) /\
  (path <> PdfScraper.csvfile ->
   (PdfScraper.pdf_scraper w fs).2 !! path = fs !! path) /\
  (path <> Scraper.csvfile ->
   (Scraper.scraper w fs).2 !! path = fs !! path).
Proof.
  split; [|split]; intros Hne; eapply deterministic_frame; try exact Hne.
  - apply owasp_scrape_deterministic.
  - apply pdf_scraper_deterministic.
  - apply scraper_deterministic.
Qed.

Lemma other_files_untouched_witness :
  (OwaspScrape.owasp_scrape (web_world 200 glossary_page) kept_files).2 !! notes_file =
    kept_files !! notes_file /\
  (PdfScraper.pdf_scraper (pdf_world [example_page]) kept_files).2 !! notes_file =
    kept_files !! notes_file /\
  (Scraper.scraper offline_world kept_files).2 !! notes_file =
    kept_files !! notes_file.
Proof.
  split; [|split].
  - apply (other_files_untouched (web_world 200 glossary_page) kept_files notes_file).
    intros E. vm_compute in E. discriminate E.
  - apply (other_files_untouched (pdf_world [example_page]) kept_files notes_file).
    intros E. vm_compute in E. discriminate E.
  - apply (other_files_untouched offline_world kept_files notes_file).
    intros E. vm_compute in E. discriminate E.
Defined.

(** X6: pdf_scraper.py and scraper.py write the same file, [terms.csv],
    and each truncates it on opening.  Whatever [terms.csv] held before,
    and so whatever a run of pdf_scraper.py left there, scraper.py ends
    and leaves the files exactly as when run alone; and when its PDF is
    read in full, pdf_scraper.py run after scraper.py leaves exactly what
    it leaves when run alone: the rows of the earlier run are lost. *)
Theorem terms_csv_last_writer_wins (w w' : world) (fs : gmap str (list row)) :
  (forall prior : list row,
     Scraper.scraper w (<[Scraper.csvfile := prior]> fs) = Scraper.scraper w fs) /\
  Scraper.scraper w (PdfScraper.pdf_scraper w' fs).2 = Scraper.scraper w fs /\
  match pdf_files w' PdfScraper.pdf with
  | Some _ =>
      PdfScraper.pdf_scraper w' (Scraper.scraper w fs).2 =
        PdfScraper.pdf_scraper w' fs
  | None => True
  end.
Proof.
  split; [|split].
  - intros prior. rewrite !scraper_run. cbv zeta. f_equal. apply insert_insert_eq.
  - rewrite (scraper_run w fs), (scraper_run w (PdfScraper.pdf_scraper w' fs).2).
    rewrite pdf_scraper_run.
    destruct (pdf_files w' PdfScraper.pdf) as [pages|]; [|reflexivity].
    cbn [snd]. f_equal. apply insert_insert_eq.
  - rewrite (pdf_scraper_run w' fs), (pdf_scraper_run w' (Scraper.scraper w fs).2).
    destruct (pdf_files w' PdfScraper.pdf) as [pages|]; [|exact I].
    rewrite scraper_run. cbn [snd]. f_equal. apply insert_insert_eq.
Qed.

Lemma csvfiles_differ : OwaspScrape.csvfile <> Scraper.csvfile.
Proof. intros E. vm_compute in E. discriminate E. Qed.

(** X7: owasp_scrape.py writes a file of its own, so it and scraper.py do
    not disturb each other: either script ends as it does when run alone,
    and the two orders leave the same files. *)
Theorem owasp_and_scraper_commute (w w' : world) (fs : gmap str (list row)) :
  (Scraper.scraper w (OwaspScrape.owasp_scrape w' fs).2).1 =
    (Scraper.scraper w fs).1 /\
  (OwaspScrape.owasp_scrape w' (Scraper.scraper w fs).2).1 =
    (OwaspScrape.owasp_scrape w' fs).1 /\
  (Scraper.scraper w (OwaspScrape.owasp_scrape w' fs).2).2 =
    (OwaspScrape.owasp_scrape w' (Scraper.scraper w fs).2).2.
Proof.
  rewrite (scraper_run w fs), (scraper_run w (OwaspScrape.owasp_scrape w' fs).2).
  rewrite (owasp_scrape_run w' fs), (owasp_scrape_run w' (_, _).2).
  destruct (network w' OwaspScrape.url) as [r|]; cbn [fst snd];
    [|split; [|split]; reflexivity].
  split; [reflexivity|]. split; [reflexivity|].
  apply insert_insert_ne. intros E. symmetry in E. exact (csvfiles_differ E).
Qed.

Lemma sections_result (secs : list element) :
  ((for_output secs section_output).2 = Ok tt <-> Forall complete_section secs) /\
  ((for_output secs section_output).2 = Ok tt \/
   (for_output secs section_output).2 = Raise AttributeError).
Proof.
  induction secs as [|sec secs [IH1 IH2]];
    [split; [split; [constructor|]|left]; reflexivity|].
  cbn [for_output].
  destruct (find (node sec) (py "h1")) as [h1|] eqn:Hh1;
    [destruct (find (node sec) (py "p")) as [p|] eqn:Hp|].
  - assert (Hsec : complete_section sec) by (split; [exists h1 | exists p]; assumption).
    destruct (complete_section_output sec Hsec) as (r & -> & _).
    destruct (for_output secs section_output) as [rows res]. cbn [snd] in *.
    split; [|exact IH2]. rewrite IH1. split.
    + intros H. constructor; assumption.
    + intros H. inversion H. assumption.
  - rewrite (incomplete_section_output sec) by (right; exact Hp). cbn [snd].
    split; [|right; reflexivity].
    split; [discriminate|]. intros H. inversion H as [|? ? [_ [p Hp']] _]. congruence.
  - rewrite (incomplete_section_output sec) by (left; exact Hh1). cbn [snd].
    split; [|right; reflexivity].
    split; [discriminate|]. intros H. inversion H as [|? ? [[h1 Hh1'] _] _]. congruence.
Qed.

(** X8: a normal end of owasp_scrape.py means that nothing was left out:
    when a run ends normally, the page was fetched, every section of it
    has an [h1] and a [p], and the output file holds the header followed
    by exactly one row per section, in document order. *)
Theorem owasp_scrape_normal_end (w : world) (fs : gmap str (list row)) :
  (OwaspScrape.owasp_scrape w fs).1 = Ok tt ->
  exists (r : Response) (rows : list row),
    network w OwaspScrape.url = Responded r /\
    Forall complete_section
      (find_all_class (content r) (py "div") (py "section")) /\
    (OwaspScrape.owasp_scrape w fs).2 =
      <[OwaspScrape.csvfile := OwaspScrape.header :: rows]> fs /\
    Forall2 section_entry
      (find_all_class (content r) (py "div") (py "section")) rows.
Proof.
  rewrite owasp_scrape_run.
  destruct (network w OwaspScrape.url) as [r|]; cbn [fst snd]; [|discriminate].
  intros Hok.
  apply (proj1 (sections_result _)) in Hok.
  destruct (complete_sections_rows _ Hok) as [Hrows Hentries].
  exists r. eexists. split; [reflexivity|]. split; [exact Hok|].
  rewrite (for_output_ok _ _ _ Hrows). split; [reflexivity | exact Hentries].
Qed.

Lemma owasp_scrape_normal_end_witness :
  exists (r : Response) (rows : list row),
    network (web_world 200 glossary_page) OwaspScrape.url = Responded r /\
    Forall complete_section
      (find_all_class (content r) (py "div") (py "section")) /\
    (OwaspScrape.owasp_scrape (web_world 200 glossary_page) ∅).2 =
      <[OwaspScrape.csvfile := OwaspScrape.header :: rows]> ∅ /\
    Forall2 section_entry
      (find_all_class (content r) (py "div") (py "section")) rows.
Proof.
  apply (owasp_scrape_normal_end (web_world 200 glossary_page) ∅).
  vm_compute. reflexivity.
Defined.

(** X9: whatever the network does, after a run of scraper.py the file
    [terms.csv] exists and starts with the header row; every row after it
    has exactly three fields, the third one of the URLs of [urls]. *)
Theorem scraper_file_shape (w : world) (fs : gmap str (list row)) :
  exists rows : list row,
    (Scraper.scraper w fs).2 !! Scraper.csvfile = Some (Scraper.header :: rows) /\
    Forall (fun r => exists t d u : str, r = [t; d; u] /\ In u Scraper.urls) rows.
Proof.
  rewrite scraper_run. cbn [snd]. rewrite lookup_insert_eq.
  eexists. split; [reflexivity|].
  apply for_output_Forall. intros url Hurl. unfold url_output.
  destruct (network w url) as [r|]; [|constructor].
  apply for_output_Forall. intros table _. unfold table_output.
  destruct (find (node table) (py "tbody")) as [tbody|]; [|constructor].
  unfold tbody_rows.
  apply Forall_concat_map. intros row.
  apply Forall_concat_map. intros cell.
  apply Forall_concat_map. intros paragraph. unfold paragraph_rows.
  destruct (find (node paragraph) (py "strong")) as [term_tag|]; [|constructor].
  cbv zeta. destruct (truthy _); [|constructor].
  repeat constructor. eexists _, _, _. split; [reflexivity | exact Hurl].
Qed.

End OutputFiles.

(** ** Where the rows come from *)

Section Provenance.
Import Output Spec Examples.

(** Induction on the tree, with the hypothesis for every child of a tag. *)
Lemma page_element_tree_ind (P : page_element -> Prop) :
  (forall ty text, P (NavigableString ty text)) ->
  (forall name cls contents, Forall P contents -> P (Tag name cls contents)) ->
  forall e, P e.
Proof.
  intros Hstring Htag. fix IH 1. intros [ty text|name cls contents].
  - apply Hstring.
  - apply Htag. induction contents as [|c l IHl]; constructor; [apply IH | exact IHl].
Qed.

(** What lies below a descendant lies below the node itself. *)
Lemma descendants_trans (e : page_element) (d d' : element) :
  In d (descendants e) -> In d' (descendants (node d)) -> In d' (descendants e).
Proof.
  revert d d'. induction e as [ty text|name cls contents IH] using page_element_tree_ind;
    intros d d' Hd Hd'; [destruct Hd|].
  cbn [descendants] in Hd |- *.
  induction IH as [|c l Hc _ IHl]; [destruct Hd|].
  destruct Hd as [<-|Hd]; [|apply in_app_or in Hd as [Hd|Hd]].
  - right. apply in_or_app. left. exact Hd'.
  - right. apply in_or_app. left. exact (Hc d d' Hd Hd').
  - right. apply in_or_app. right. exact (IHl Hd).
Qed.

Lemma find_all_In (e : page_element) (name : str) (d : element) :
  In d (find_all e name) <-> In d (descendants e) /\ is_tag name (node d) = true.
Proof. unfold find_all. apply filter_In. Qed.

Lemma find_all_class_In (e : page_element) (name c : str) (d : element) :
  In d (find_all_class e name c) -> In d (descendants e).
Proof. unfold find_all_class. intros H. apply filter_In in H. tauto. Qed.

Lemma find_In (e : page_element) (name : str) (d : element) :
  find e name = Some d -> In d (find_all e name).
Proof.
  unfold find. destruct (find_all e name) as [|x l]; [discriminate|].
  intros [= <-]. left. reflexivity.
Qed.

(** An element found below a descendant is found from the node itself. *)
Lemma find_all_below (e : page_element) (d d' : element) (name : str) :
  In d (descendants e) -> In d' (find_all (node d) name) -> In d' (find_all e name).
Proof.
  intros Hd [Hd' Htag]%find_all_In. apply find_all_In.
  split; [exact (descendants_trans e d d' Hd Hd') | exact Htag].
Qed.

Lemma Forall_concat_map_In {A : Type} (P : row -> Prop) (f : A -> list row)
    (l : list A) :
  (forall x, In x l -> Forall P (f x)) -> Forall P (concat (List.map f l)).
Proof.
  induction l as [|x l IH]; intros H; simpl; [constructor|].
  apply Forall_app. split; [apply H; left; reflexivity|].
  apply IH. intros y Hy. apply H. right. exact Hy.
Qed.

(** X10: every data row of scraper.py comes from a [strong] element of
    the fetched page: its term is the text of that element and its
    definition the join of the non-empty stripped text siblings after it.
    Nothing is written that is not read from such an element. *)
Theorem table_rows_provenance (w : world) (r : Response) :
  (forall u, In u Scraper.urls -> network w u = Responded r) ->
  Forall (fun row => exists strong : element,
            In strong (find_all (content r) (py "strong")) /\
            row = [ get_text_strip (node strong);
                    join (py " ") (List.filter truthy (definition_parts strong));
                    sans_url ])
    (entries (Scraper.scraper w) Scraper.csvfile).
Proof.
  intros Hnet. rewrite entries_scraper, (urls_output w r Hnet). cbv zeta.
  assert (Hrows : Forall (fun row => exists strong : element,
            In strong (find_all (content r) (py "strong")) /\
            row = [ get_text_strip (node strong);
                    join (py " ") (List.filter truthy (definition_parts strong));
                    sans_url ])
    (for_output (find_all (content r) (py "table")) (table_output sans_url)).1).
  { apply for_output_Forall. intros table [Htable _]%find_all_In.
    unfold table_output.
    destruct (find (node table) (py "tbody")) as [tbody|] eqn:Htbody; [|constructor].
    apply find_In in Htbody.
    assert (Hb : In tbody (descendants (content r)))
      by (apply (find_all_below _ _ _ _ Htable) in Htbody;
          apply find_all_In in Htbody; tauto).
    unfold tbody_rows. cbn [fst].
    apply Forall_concat_map_In. intros row Hrow.
    assert (Hr : In row (descendants (content r)))
      by (apply (find_all_below _ _ _ _ Hb) in Hrow;
          apply find_all_In in Hrow; tauto).
    apply Forall_concat_map_In. intros cell Hcell.
    assert (Hc : In cell (descendants (content r)))
      by (apply (find_all_below _ _ _ _ Hr) in Hcell;
          apply find_all_In in Hcell; tauto).
    apply Forall_concat_map_In. intros paragraph Hpar.
    assert (Hp : In paragraph (descendants (content r)))
      by (apply (find_all_below _ _ _ _ Hc) in Hpar;
          apply find_all_In in Hpar; tauto).
    unfold paragraph_rows.
    destruct (find (node paragraph) (py "strong")) as [term_tag|] eqn:Hterm;
      [|constructor].
    cbv zeta. destruct (truthy _); [|constructor].
    repeat constructor. exists term_tag. split; [|reflexivity].
    apply find_In in Hterm. exact (find_all_below _ _ _ _ Hp Hterm). }
  destruct (for_output (find_all (content r) (py "table")) (table_output sans_url))
    as [rows [[]|e]]; cbn [fst snd] in *; [rewrite app_nil_r|]; exact Hrows.
Qed.

Lemma table_rows_provenance_witness :
  Forall (fun row => exists strong : element,
            In strong (find_all (table_page worm_paragraph) (py "strong")) /\
            row = [ get_text_strip (node strong);
                    join (py " ") (List.filter truthy (definition_parts strong));
                    sans_url ])
    (entries (Scraper.scraper (web_world 200 (table_page worm_paragraph)))
       Scraper.csvfile).
Proof.
  apply (table_rows_provenance (web_world 200 (table_page worm_paragraph))
           {| status_code := 200; content := table_page worm_paragraph |}).
  intros u _. reflexivity.
Defined.

(** X11: every data row of owasp_scrape.py is the text of an [h1]
    element and the text of a [p] element of the fetched page, both lying
    below one element of class [section]. *)
Theorem section_rows_provenance (w : world) (r : Response) :
  network w OwaspScrape.url = Responded r ->
  Forall (fun row => exists section h1 p : element,
            In section (find_all_class (content r) (py "div") (py "section")) /\
            In h1 (find_all (node section) (py "h1")) /\
            In p (find_all (node section) (py "p")) /\
            In h1 (find_all (content r) (py "h1")) /\
            In p (find_all (content r) (py "p")) /\
            row = [get_text_strip (node h1); get_text_strip (node p)])
    (entries (OwaspScrape.owasp_scrape w) OwaspScrape.csvfile).
Proof.
  intros Hnet. rewrite entries_owasp_scrape, Hnet.
  apply for_output_Forall. intros section Hsection. unfold section_output.
  destruct (find (node section) (py "h1")) as [h1|] eqn:Hh1; [|constructor].
  destruct (find (node section) (py "p")) as [p|] eqn:Hp; [|constructor].
  repeat constructor. exists section, h1, p.
  apply find_In in Hh1, Hp.
  pose proof (find_all_class_In _ _ _ _ Hsection) as Hs.
  split; [exact Hsection|]. split; [exact Hh1|]. split; [exact Hp|].
  split; [exact (find_all_below _ _ _ _ Hs Hh1)|].
  split; [exact (find_all_below _ _ _ _ Hs Hp) | reflexivity].
Qed.

Lemma section_rows_provenance_witness :
  Forall (fun row => exists section h1 p : element,
            In section (find_all_class glossary_page (py "div") (py "section")) /\
            In h1 (find_all (node section) (py "h1")) /\
            In p (find_all (node section) (py "p")) /\
            In h1 (find_all glossary_page (py "h1")) /\
            In p (find_all glossary_page (py "p")) /\
            row = [get_text_strip (node h1); get_text_strip (node p)])
    (entries (OwaspScrape.owasp_scrape (web_world 200 glossary_page))
       OwaspScrape.csvfile).
Proof.
  apply (section_rows_provenance (web_world 200 glossary_page)
           {| status_code := 200; content := glossary_page |}).
  reflexivity.
Defined.

End Provenance.

(** ** pdf_scraper.py: the text after the last period *)

Section PatternTail.
Import Re Output Spec PageText Examples.
Import PdfScraper.

Ltac reassociate :=
  repeat first [rewrite <- app_assoc | progress (cbn [app])].

(** Two splits of one text at the first character that fails [p]. *)
Lemma split_first_failing (p : char -> bool) (c : char) (a a' x x' : str) :
  p c = false -> forallb p a = true -> forallb p a' = true ->
  a ++ c :: x = a' ++ c :: x' -> a = a' /\ x = x'.
Proof.
  intros Hc. revert a'. induction a as [|y a IH]; intros [|y' a'] Ha Ha' E;
    simpl in *.
  - injection E as <-. auto.
  - injection E as <- _. apply andb_true_iff in Ha' as [Hy _]. congruence.
  - injection E as -> _. apply andb_true_iff in Ha as [Hy _]. congruence.
  - injection E as <- E.
    apply andb_true_iff in Ha as [_ Ha]. apply andb_true_iff in Ha' as [_ Ha'].
    destruct (IH a' Ha Ha' E) as [-> ->]. auto.
Qed.

Lemma isspace_non_period (c : char) : isspace c = true -> non_period c = true.
Proof.
  intros Hc. unfold non_period. destruct (N.eqb_spec c period) as [->|_];
    [discriminate Hc | reflexivity].
Qed.

Lemma forallb_isspace_non_period (ws : str) :
  forallb isspace ws = true -> forallb non_period ws = true.
Proof.
  induction ws as [|c ws IH]; simpl; [reflexivity|].
  intros [Hc Hws]%andb_true_iff. rewrite (isspace_non_period c Hc). auto.
Qed.

(** The greedy split of the text between the colon and the period. *)
Lemma greedy_split_unique (ws ws' d d' : str) :
  forallb isspace ws = true -> forallb isspace ws' = true ->
  d <> [] -> d' <> [] ->
  (forall c x, d = c :: x -> isspace c = true -> x = []) ->
  (forall c x, d' = c :: x -> isspace c = true -> x = []) ->
  ws ++ d = ws' ++ d' -> ws = ws' /\ d = d'.
Proof.
  intros Hws Hws' Hd Hd' Hg Hg' E.
  apply app_eq_app in E as [l [[-> ->]|[-> ->]]].
  - destruct l as [|c l]; [rewrite app_nil_r; auto|]. exfalso.
    rewrite forallb_app in Hws. apply andb_true_iff in Hws as [_ Hl].
    simpl in Hl. apply andb_true_iff in Hl as [Hc _].
    pose proof (Hg' c (l ++ d) eq_refl Hc) as E.
    apply app_eq_nil in E as [_ ->]. congruence.
  - destruct l as [|c l]; [rewrite app_nil_r; auto|]. exfalso.
    rewrite forallb_app in Hws'. apply andb_true_iff in Hws' as [_ Hl].
    simpl in Hl. apply andb_true_iff in Hl as [Hc _].
    pose proof (Hg c (l ++ d') eq_refl Hc) as E.
    apply app_eq_nil in E as [_ ->]. congruence.
Qed.

(** At one position there is at most one greedy match. *)
Lemma greedy_match_unique (s t d rest t' d' rest' : str) :
  is_greedy_match s t d rest -> is_greedy_match s t' d' rest' ->
  t = t' /\ d = d' /\ rest = rest'.
Proof.
  intros [(ws & Hs & Ht & Htall & Hws & Hwsall & Hd & Hdall) Hg]
         [(ws' & Hs' & Ht' & Htall' & Hws' & Hwsall' & Hd' & Hdall') Hg'].
  rewrite Hs in Hs'.
  apply (split_first_failing term_char colon) in Hs' as [<- Hs'];
    [|reflexivity | assumption..].
  rewrite !app_assoc in Hs'.
  apply (split_first_failing non_period period) in Hs' as [Hseg <-];
    [|reflexivity
     |rewrite forallb_app, (forallb_isspace_non_period _ Hwsall), Hdall; reflexivity
     |rewrite forallb_app, (forallb_isspace_non_period _ Hwsall'), Hdall'; reflexivity].
  destruct (greedy_split_unique _ _ _ _ Hwsall Hwsall' Hd Hd' Hg Hg' Hseg) as [_ <-].
  auto.
Qed.

Lemma is_match_extend_right (s t d rest tail : str) :
  is_match s t d rest -> is_match (s ++ tail) t d (rest ++ tail).
Proof.
  intros (ws & -> & H). exists ws. split; [|exact H].
  reassociate. reflexivity.
Qed.

(** A match ends with a period, so it ends before a tail without one. *)
Lemma is_match_restrict (s t d rest' tail : str) :
  forallb non_period tail = true ->
  is_match (s ++ tail) t d rest' ->
  exists rest, rest' = rest ++ tail /\ is_match s t d rest.
Proof.
  intros Htail (ws & Hs & H).
  replace (t ++ colon :: ws ++ d ++ period :: rest')
    with ((t ++ colon :: ws ++ d) ++ period :: rest') in Hs
    by (reassociate; reflexivity).
  apply app_eq_app in Hs as [l [[Hs Hl]|[_ Hl]]].
  - destruct l as [|x l].
    + simpl in Hl. rewrite <- Hl in Htail. simpl in Htail.
      change (non_period period) with false in Htail. discriminate.
    + injection Hl as <- ->. exists l. split; [reflexivity|].
      exists ws. split; [|exact H].
      rewrite Hs. reassociate. reflexivity.
  - rewrite Hl, forallb_non_period_period in Htail. discriminate.
Qed.

Lemma match_here_greedy_match (s : str) (parts : list str) (rest : str) :
  match_here pattern s = Some (parts, rest) ->
  exists t d, groups pattern parts = [t; d] /\ is_greedy_match s t d rest.
Proof.
  intros Hm.
  destruct (match_here_is_match _ _ _ Hm) as (t & d & Hg & His).
  destruct (match_here_definition_greedy _ _ _ Hm) as (t' & d' & Hg' & Hgreedy).
  rewrite Hg in Hg'. injection Hg' as <- <-.
  exists t, d. split; [exact Hg | split; assumption].
Qed.

(** The matcher at one position, with and without a tail that holds no
    period. *)
Lemma match_here_tail (s tail : str) :
  forallb non_period tail = true ->
  match match_here pattern s with
  | Some (parts, rest) =>
      exists parts', match_here pattern (s ++ tail) = Some (parts', rest ++ tail) /\
                     groups pattern parts' = groups pattern parts
  | None => match_here pattern (s ++ tail) = None
  end.
Proof.
  intros Htail.
  destruct (match_here pattern s) as [[parts rest]|] eqn:Hm.
  - destruct (match_here_greedy_match _ _ _ Hm) as (t & d & Hg & [His Hgreedy]).
    destruct (match_here pattern (s ++ tail)) as [[parts' rest']|] eqn:Hm'.
    + destruct (match_here_greedy_match _ _ _ Hm') as (t' & d' & Hg' & Hgm').
      assert (Hgm : is_greedy_match (s ++ tail) t d (rest ++ tail))
        by (split; [apply is_match_extend_right, His | exact Hgreedy]).
      destruct (greedy_match_unique _ _ _ _ _ _ _ Hgm Hgm') as (<- & <- & <-).
      exists parts'. split; [reflexivity | congruence].
    + exfalso. exact (match_here_no_match _ Hm' _ _ _ (is_match_extend_right _ _ _ _ tail His)).
  - destruct (match_here pattern (s ++ tail)) as [[parts' rest']|] eqn:Hm'; [|reflexivity].
    exfalso. destruct (match_here_is_match _ _ _ Hm') as (t & d & _ & His).
    destruct (is_match_restrict _ _ _ _ _ Htail His) as (rest & _ & His').
    exact (match_here_no_match _ Hm _ _ _ His').
Qed.

Lemma findall_from_tail (tail : str) :
  forallb non_period tail = true ->
  forall n m s, length (s ++ tail) < n -> length s < m ->
    findall_from n pattern (s ++ tail) = findall_from m pattern s.
Proof.
  intros Htail. induction n as [|n IH]; intros m s Hn Hm; [lia|].
  destruct m as [|m]; [lia|]. cbn [findall_from].
  pose proof (match_here_tail s tail Htail) as Ht.
  destruct (match_here pattern s) as [[parts rest]|] eqn:Hs.
  - destruct Ht as (parts' & -> & ->). f_equal.
    apply match_here_is_match in Hs as (t & d & _ & His).
    apply is_match_min_length in His.
    rewrite length_app in Hn. apply IH; [rewrite length_app|]; lia.
  - rewrite Ht. destruct s as [|c s].
    + cbn [app]. destruct tail as [|c tail]; [reflexivity|].
      apply findall_from_no_match. intros u v E t d rest (ws & Hv & _).
      assert (Hall : forallb non_period (c :: tail) = true) by exact Htail.
      change (c :: tail) with ([c] ++ tail) in Hall.
      rewrite forallb_app in Hall. apply andb_true_iff in Hall as [_ Hall].
      rewrite E, forallb_app in Hall. apply andb_true_iff in Hall as [_ Hall].
      replace v with ((t ++ colon :: ws ++ d) ++ period :: rest) in Hall
        by (rewrite Hv; reassociate; reflexivity).
      rewrite forallb_non_period_period in Hall. discriminate.
    + cbn [app]. cbn [app length] in Hn, Hm. apply IH; lia.
Qed.

(** X12: what follows the last period of a page contributes nothing: a
    page gives the same data rows with or without a tail that holds no
    period, such as an entry cut off by the page break. *)
Theorem tail_without_period_ignored (text tail : str) :
  forallb non_period tail = true ->
  page_rows (text ++ tail) = page_rows text.
Proof.
  intros Htail. unfold page_rows, findall. f_equal.
  apply findall_from_tail; [exact Htail | lia..].
Qed.

Lemma tail_without_period_ignored_witness :
  page_rows (example_page ++ cut_off_tail) = page_rows example_page.
Proof.
  apply (tail_without_period_ignored example_page cut_off_tail).
  vm_compute. reflexivity.
Defined.

End PatternTail.

(** ** pdf_scraper.py: the pattern at one position *)

Section PatternCharacterised.
Import Re Output Spec PageText.
Import PdfScraper.

(** X13: at any position of a page the pattern matches exactly when the
    text there reads: a non-empty run of uppercase letters and whitespace,
    a colon, whitespace, a non-empty run without a period, a period; the
    term and the definition it captures are those of the one such reading
    that gives the whitespace after the colon as many characters as it
    can. *)
Theorem pattern_match_characterised (s t d rest : str) :
  is_greedy_match s t d rest <->
  exists parts, match_here pattern s = Some (parts, rest) /\
                groups pattern parts = [t; d].
Proof.
  split.
  - intros Hgm.
    destruct (match_here pattern s) as [[parts rest']|] eqn:Hm.
    + destruct (match_here_greedy_match _ _ _ Hm) as (t' & d' & Hg & Hgm').
      destruct (greedy_match_unique _ _ _ _ _ _ _ Hgm Hgm') as (<- & <- & <-).
      exists parts. auto.
    + exfalso. exact (match_here_no_match _ Hm _ _ _ (proj1 Hgm)).
  - intros (parts & Hm & Hg).
    destruct (match_here_greedy_match _ _ _ Hm) as (t' & d' & Hg' & Hgm).
    rewrite Hg in Hg'. injection Hg' as <- <-. exact Hgm.
Qed.

End PatternCharacterised.

(** ** scraper.py: nested tables *)

Section NestedTables.
Import Output Spec Examples.

Lemma in_tbody_rows (url : str) (tbody : element) (r : row) :
  In r (tbody_rows url tbody) <->
  exists row cell paragraph,
    In row (find_all (node tbody) (py "tr")) /\
    In cell (find_all (node row) (py "td")) /\
    In paragraph (find_all (node cell) (py "p")) /\
    In r (paragraph_rows url paragraph).
Proof.
  unfold tbody_rows. rewrite in_concat. split.
  - intros (rows1 & Hin1 & Hr).
    apply in_map_iff in Hin1 as (row & <- & Hrow).
    apply in_concat in Hr as (rows2 & Hin2 & Hr).
    apply in_map_iff in Hin2 as (cell & <- & Hcell).
    apply in_concat in Hr as (rows3 & Hin3 & Hr).
    apply in_map_iff in Hin3 as (paragraph & <- & Hpar).
    exists row, cell, paragraph. auto.
  - intros (row & cell & paragraph & Hrow & Hcell & Hpar & Hr).
    eexists. split; [apply in_map_iff; exists row; split; [reflexivity | exact Hrow]|].
    apply in_concat.
    eexists. split; [apply in_map_iff; exists cell; split; [reflexivity | exact Hcell]|].
    apply in_concat.
    eexists. split; [apply in_map_iff; exists paragraph; split; [reflexivity | exact Hpar]|].
    exact Hr.
Qed.

(** A table body below another: what the inner one yields, the outer one
    yields too, since each level of the search covers the whole subtree. *)
Lemma tbody_rows_below (url : str) (outer inner : element) :
  In inner (descendants (node outer)) ->
  incl (tbody_rows url inner) (tbody_rows url outer).
Proof.
  intros Hin r Hr.
  apply in_tbody_rows in Hr as (row & cell & paragraph & Hrow & Hrest).
  apply in_tbody_rows. exists row, cell, paragraph.
  split; [exact (find_all_below _ _ _ _ Hin Hrow) | exact Hrest].
Qed.

Lemma tables_rows_ok (url : str) (tables : list element) :
  Forall has_tbody tables ->
  for_output tables (table_output url) =
    (concat (List.map (fun table => (table_output url table).1) tables), Ok tt).
Proof.
  intros Hall. apply for_output_ok. intros table Hin.
  rewrite Forall_forall in Hall.
  destruct (Hall table (proj2 (list_elem_of_In _ _) Hin)) as [tbody Htbody].
  unfold table_output. rewrite Htbody. reflexivity.
Qed.

(** X14: the rows of a table are searched through the whole subtree of
    its body, so a table nested in the body of another is read more than
    once: with the page fetched and a [tbody] below every table, each
    entry of the table nested in the body of an earlier table is written
    at least twice. *)
Theorem nested_tbody_rows_repeated (w : world) (r : Response)
    (before between after : list element)
    (outer inner outer_body inner_body : element) (entry : row) :
  (forall u, In u Scraper.urls -> network w u = Responded r) ->
  find_all (content r) (py "table") =
    before ++ outer :: between ++ inner :: after ->
  Forall has_tbody (find_all (content r) (py "table")) ->
  find (node outer) (py "tbody") = Some outer_body ->
  find (node inner) (py "tbody") = Some inner_body ->
  inner_body = outer_body \/ In inner_body (descendants (node outer_body)) ->
  In entry (tbody_rows sans_url inner_body) ->
  exists rows1 rows2 rows3 : list row,
    entries (Scraper.scraper w) Scraper.csvfile =
      rows1 ++ entry :: rows2 ++ entry :: rows3.
Proof.
  intros Hnet Htables Hall Houter Hinner Hbelow Hentry.
  assert (Hentry' : In entry (tbody_rows sans_url outer_body)).
  { destruct Hbelow as [<-|Hin]; [exact Hentry|].
    exact (tbody_rows_below _ _ _ Hin _ Hentry). }
  apply in_split in Hentry as (i1 & i2 & Hi).
  apply in_split in Hentry' as (o1 & o2 & Ho).
  rewrite entries_scraper, (urls_output w r Hnet). cbv zeta.
  rewrite (tables_rows_ok _ _ Hall). cbn [fst snd].
  rewrite Htables, !map_app, !concat_app. cbn [List.map concat].
  rewrite !map_app, !concat_app. cbn [List.map concat].
  unfold table_output at 2 4. rewrite Houter, Hinner. cbn [fst].
  rewrite Hi, Ho.
  set (rows_before := concat (List.map _ before)).
  set (rows_between := concat (List.map _ between)).
  set (rows_after := concat (List.map _ after)).
  exists (rows_before ++ o1), (o2 ++ rows_between ++ i1), (i2 ++ rows_after).
  repeat first [rewrite <- app_assoc | progress (cbn [app])].
  rewrite app_nil_r. reflexivity.
Qed.

Lemma nested_tbody_rows_repeated_witness :
  exists rows1 rows2 rows3 : list row,
    entries (Scraper.scraper (web_world 200 enclosing_page)) Scraper.csvfile =
      rows1 ++ [py "Worm"; py "malware"; sans_url] :: rows2
            ++ [py "Worm"; py "malware"; sans_url] :: rows3.
Proof.
  apply (nested_tbody_rows_repeated (web_world 200 enclosing_page)
           {| status_code := 200; content := enclosing_page |}
           [] [] []
           (Element enclosing_table []) (Element inner_table [])
           (Element enclosing_body []) (Element inner_body [])
           [py "Worm"; py "malware"; sans_url]).
  - intros u _. reflexivity.
  - vm_compute. reflexivity.
  - repeat constructor; eexists; vm_compute; reflexivity.
  - vm_compute. reflexivity.
  - vm_compute. reflexivity.
  - right. vm_compute. repeat first [left; reflexivity | right].
  - vm_compute. left. reflexivity.
Defined.

End NestedTables.
